(** * AudioAnalysisTools: beat detection, time-domain features and frame reads

    A shallow embedding of

    - [Analyzers/BeatDetection.cpp]       (class [UBeatDetection]),
    - [Analyzers/CoreTimeDomainFeatures.cpp] (class [UCoreTimeDomainFeatures]),
    - [AudioAnalysisToolsLibrary.cpp]     ([GetAudioFrameFromSoundWaveByFramesCustom]),

    followed by the properties of the design document that concern them.

    Numbers.  The C++ code computes on [float] (IEEE 754 binary32) with a
    few sub-expressions promoted to [double].  The embedding is written
    once, over an interface [FloatArith] of the arithmetic the code uses,
    and has two instances: [binary32], bit-exact and executable, on which
    the code is run on concrete inputs; and [exact], the same operations
    read over the real numbers, on which the algebraic laws of the design
    document are stated.  [FMath::Pow(x, 2)] is the correctly rounded
    square.  [int32]/[int64] quantities are integers of [Z]: the sizes and
    indices of this code stay far inside the machine range, and [/] and [%]
    of C++ are [Z.quot] and [Z.rem].

    Memory.  [TArray] is a list whose [operator[]] is range-checked: an
    access out of range has no result ([None]), and neither has a call that
    makes one.  A member function is a function from the object before the
    call to the object after it.  Object pointers are taken to be valid;
    logging is left out. *)

From Stdlib Require Import ZArith Reals Lra Lia.
From Stdlib Require Import Floats.SpecFloat.
From stdpp Require Import base option list list_numbers.

Local Open Scope Z_scope.

(** ** Arithmetic of the code *)

Class FloatArith := {
  float : Type;                        (* float *)
  double : Type;                       (* double *)
  f_of_int : Z -> float;               (* static_cast<float>(n), integer literal used as float *)
  fadd : float -> float -> float;
  fsub : float -> float -> float;
  fmul : float -> float -> float;
  fdiv : float -> float -> float;
  fabs : float -> float;               (* FMath::Abs *)
  fsqrt : float -> float;              (* FMath::Sqrt *)
  fgt : float -> float -> bool;        (* a > b *)
  d_of_float : float -> double;        (* promotion float -> double *)
  f_of_double : double -> float;       (* narrowing double -> float on assignment *)
  d_lit : Z -> nat -> double;          (* decimal literal  m * 10^-k  of type double *)
  dadd : double -> double -> double;
  dmul : double -> double -> double
}.

(** *** IEEE 754 binary32 / binary64, round to nearest even *)

Module B32.
Definition prec : Z := 24.
Definition emax : Z := 128.
Definition of_Z (n : Z) : spec_float := binary_normalize prec emax n 0 false.
Definition add := SFadd prec emax.
Definition sub := SFsub prec emax.
Definition mul := SFmul prec emax.
Definition div := SFdiv prec emax.
Definition sqrt := SFsqrt prec emax.
Definition gt (a b : spec_float) : bool := SFltb b a.
Definition is_nan (x : spec_float) : bool :=
  match x with S754_nan => true | _ => false end.
(** a number, as opposed to an infinity or a NaN *)
Definition is_finite (x : spec_float) : bool :=
  match x with S754_zero _ | S754_finite _ _ _ => true | _ => false end.
End B32.

Module B64.
Definition prec : Z := 53.
Definition emax : Z := 1024.
Definition of_Z (n : Z) : spec_float := binary_normalize prec emax n 0 false.
Definition add := SFadd prec emax.
Definition mul := SFmul prec emax.
Definition div := SFdiv prec emax.
(** the double nearest to [m / 10^k]; exact for [|m|, 10^k < 2^53] operands,
    so the correctly rounded quotient is the correctly rounded literal *)
Definition lit (m : Z) (k : nat) : spec_float := div (of_Z m) (of_Z (10 ^ Z.of_nat k)).
Definition of_single (x : spec_float) : spec_float :=
  match x with
  | S754_finite s m e => binary_round prec emax s m e
  | _ => x
  end.
Definition to_single (x : spec_float) : spec_float :=
  match x with
  | S754_finite s m e => binary_round B32.prec B32.emax s m e
  | _ => x
  end.
End B64.

Definition binary32 : FloatArith := {|
  float := spec_float;
  double := spec_float;
  f_of_int := B32.of_Z;
  fadd := B32.add;
  fsub := B32.sub;
  fmul := B32.mul;
  fdiv := B32.div;
  fabs := SFabs;
  fsqrt := B32.sqrt;
  fgt := B32.gt;
  d_of_float := B64.of_single;
  f_of_double := B64.to_single;
  d_lit := B64.lit;
  dadd := B64.add;
  dmul := B64.mul
|}.

(** *** The same operations over the real numbers *)

Definition Rgtb (a b : R) : bool := if Rlt_dec b a then true else false.

Definition exact : FloatArith := {|
  float := R;
  double := R;
  f_of_int := IZR;
  fadd := Rplus;
  fsub := Rminus;
  fmul := Rmult;
  fdiv := Rdiv;
  fabs := Rabs;
  fsqrt := sqrt;
  fgt := Rgtb;
  d_of_float := fun x => x;
  f_of_double := fun x => x;
  d_lit := fun m k => (IZR m / IZR (10 ^ Z.of_nat k))%R;
  dadd := Rplus;
  dmul := Rmult
|}.

(** ** TArray: range-checked indexing, SetNum, counted loops *)

Section Arrays.
Context {A : Type}.

(** [Array[Index]] read *)
Definition at_ (a : list A) (i : Z) : option A :=
  if decide (0 <= i) then a !! Z.to_nat i else None.

(** [Array[Index] = x] *)
Definition store (a : list A) (i : Z) (x : A) : option (list A) :=
  if decide (0 <= i < Z.of_nat (length a)) then Some (<[Z.to_nat i := x]> a) else None.

(** [Array[Index] op= ...]: read, compute, write back *)
Definition modify (a : list A) (i : Z) (f : A -> A) : option (list A) :=
  x ← at_ a i; store a i (f x).

(** [Array.SetNum(NewNum)]: elements that stay keep their value, elements
    that are added are default-constructed ([dflt]).  Every call site
    passes [NewNum > 0]. *)
Definition SetNum (dflt : A) (NewNum : Z) (a : list A) : list A :=
  resize (Z.to_nat NewNum) dflt a.
End Arrays.

Section Loops.
Context {St : Type}.

(** [n] iterations of [body] at [i], [i+1], ... *)
Fixpoint for_count (n : nat) (i : Z) (body : Z -> St -> option St) (st : St)
  : option St :=
  match n with
  | O => Some st
  | S n' => st' ← body i st; for_count n' (i + 1) body st'
  end.

(** [for (int64 i = lo; i < hi; ++i) body] *)
Definition for_loop (lo hi : Z) (body : Z -> St -> option St) (st : St)
  : option St :=
  for_count (Z.to_nat (hi - lo)) lo body st.
End Loops.

(** ** CoreTimeDomainFeatures.cpp *)

Section TimeDomain.
Context {FA : FloatArith}.

(** [FMath::Pow(x, 2)] on [float] *)
Definition fpow2 (x : float) : float := fmul x x.

Definition GetRootMeanSquare (AudioFrame : list float) : float :=
  let Sum := foldl (fun Sum Frame => fadd Sum (fpow2 Frame)) (f_of_int 0) AudioFrame in
  fsqrt (fdiv Sum (f_of_int (Z.of_nat (length AudioFrame)))).

Definition GetPeakEnergy (AudioFrame : list float) : float :=
  foldl (fun Peak Frame =>
           let AbsSample := fabs Frame in
           if fgt AbsSample Peak then AbsSample else Peak)
        (f_of_int (-10000)) AudioFrame.

(** one iteration of the loop of [GetZeroCrossingRate] *)
Definition ZeroCrossingStep (AudioFrame : list float) (FrameIndex : Z)
    (ZeroCrossingRateValue : float) : option float :=
  cur ← at_ AudioFrame FrameIndex;
  prev ← at_ AudioFrame (FrameIndex - 1);
  let bIsCurrentPositive := fgt cur (f_of_int 0) in
  let bIsPreviousPositive := fgt prev (f_of_int 0) in
  if negb (eqb bIsCurrentPositive bIsPreviousPositive)
  then Some (f_of_double (dadd (d_of_float ZeroCrossingRateValue) (d_lit 1 0)))
  else Some ZeroCrossingRateValue.

Definition GetZeroCrossingRate (AudioFrame : list float) : option float :=
  for_loop 1 (Z.of_nat (length AudioFrame)) (ZeroCrossingStep AudioFrame) (f_of_int 0).
End TimeDomain.

(** ** BeatDetection.cpp *)

Section BeatDetection.
Context {FA : FloatArith}.

(** The data members of [UBeatDetection]; the arrays hold [float]. *)
Record UBeatDetection := mkBeatDetection {
  HistoryPosition : Z;
  FFTSubbandsSize : Z;
  EnergyHistorySize : Z;
  FFTSubbands : list float;
  FFTAverageEnergy : list float;
  FFTVariance : list float;
  FFTBeatValues : list float;
  EnergyHistory : list (list float)
}.

Definition with_HistoryPosition (p : Z) (bd : UBeatDetection) : UBeatDetection :=
  mkBeatDetection p (FFTSubbandsSize bd) (EnergyHistorySize bd) (FFTSubbands bd)
    (FFTAverageEnergy bd) (FFTVariance bd) (FFTBeatValues bd) (EnergyHistory bd).
Definition with_EnergyHistorySize (h : Z) (bd : UBeatDetection) : UBeatDetection :=
  mkBeatDetection (HistoryPosition bd) (FFTSubbandsSize bd) h (FFTSubbands bd)
    (FFTAverageEnergy bd) (FFTVariance bd) (FFTBeatValues bd) (EnergyHistory bd).
Definition with_FFTSubbands (a : list float) (bd : UBeatDetection) : UBeatDetection :=
  mkBeatDetection (HistoryPosition bd) (FFTSubbandsSize bd) (EnergyHistorySize bd) a
    (FFTAverageEnergy bd) (FFTVariance bd) (FFTBeatValues bd) (EnergyHistory bd).
Definition with_FFTAverageEnergy (a : list float) (bd : UBeatDetection) : UBeatDetection :=
  mkBeatDetection (HistoryPosition bd) (FFTSubbandsSize bd) (EnergyHistorySize bd)
    (FFTSubbands bd) a (FFTVariance bd) (FFTBeatValues bd) (EnergyHistory bd).
Definition with_FFTVariance (a : list float) (bd : UBeatDetection) : UBeatDetection :=
  mkBeatDetection (HistoryPosition bd) (FFTSubbandsSize bd) (EnergyHistorySize bd)
    (FFTSubbands bd) (FFTAverageEnergy bd) a (FFTBeatValues bd) (EnergyHistory bd).
Definition with_FFTBeatValues (a : list float) (bd : UBeatDetection) : UBeatDetection :=
  mkBeatDetection (HistoryPosition bd) (FFTSubbandsSize bd) (EnergyHistorySize bd)
    (FFTSubbands bd) (FFTAverageEnergy bd) (FFTVariance bd) a (EnergyHistory bd).
Definition with_EnergyHistory (a : list (list float)) (bd : UBeatDetection) : UBeatDetection :=
  mkBeatDetection (HistoryPosition bd) (FFTSubbandsSize bd) (EnergyHistorySize bd)
    (FFTSubbands bd) (FFTAverageEnergy bd) (FFTVariance bd) (FFTBeatValues bd) a.

(** [UBeatDetection::UBeatDetection()] *)
Definition NewObject : UBeatDetection := mkBeatDetection 0 0 0 [] [] [] [] [].

(** body of the loop of [UpdateEnergyHistorySize] *)
Definition ResizeHistoryStep (SubbandIndex : Z) (bd : UBeatDetection)
  : option UBeatDetection :=
  row ← at_ (EnergyHistory bd) SubbandIndex;
  eh ← store (EnergyHistory bd) SubbandIndex
             (SetNum (f_of_int 0) (EnergyHistorySize bd) row);
  Some (with_EnergyHistory eh bd).

Definition UpdateEnergyHistorySize (InEnergyHistorySize : Z) (bd : UBeatDetection)
  : option UBeatDetection :=
  if decide (InEnergyHistorySize <= 0) then Some bd   (* logged, nothing changes *)
  else
    let bd := with_EnergyHistorySize InEnergyHistorySize bd in
    for_loop 0 (FFTSubbandsSize bd) ResizeHistoryStep bd.

Definition UpdateFFTSubbandsSize (InFFTSubbandsSize : Z) (bd : UBeatDetection)
  : option UBeatDetection :=
  if decide (InFFTSubbandsSize <= 0) then Some bd     (* logged, nothing changes *)
  else
    let n := InFFTSubbandsSize in
    let bd :=
      mkBeatDetection (HistoryPosition bd) n (EnergyHistorySize bd)
        (SetNum (f_of_int 0) n (FFTSubbands bd))
        (SetNum (f_of_int 0) n (FFTAverageEnergy bd))
        (SetNum (f_of_int 0) n (FFTVariance bd))
        (SetNum (f_of_int 0) n (FFTBeatValues bd))
        (SetNum [] n (EnergyHistory bd)) in
    UpdateEnergyHistorySize (EnergyHistorySize bd) bd.

Definition CreateBeatDetection (InFFTSubbandsSize InEnergyHistorySize : Z)
  : option UBeatDetection :=
  let BeatDetection := with_EnergyHistorySize InEnergyHistorySize NewObject in
  UpdateFFTSubbandsSize InFFTSubbandsSize BeatDetection.

(** [(-0.0025714 * Variance) + 1.15142857], evaluated in [double] and
    stored into a [float] *)
Definition BeatValue (Variance : float) : float :=
  f_of_double (dadd (dmul (d_lit (-25714) 7) (d_of_float Variance)) (d_lit 115142857 8)).

(** first loop of [UpdateFFT]: sub-band value, variance, beat value *)
Definition SubbandStep (MagnitudeSpectrum : list float) (SubbandIndex : Z)
    (bd : UBeatDetection) : option UBeatDetection :=
  let MagnitudeSpectrumSize := Z.of_nat (length MagnitudeSpectrum) in
  let Width := MagnitudeSpectrumSize `quot` FFTSubbandsSize bd in
  let Scale := fdiv (f_of_int (FFTSubbandsSize bd)) (f_of_int MagnitudeSpectrumSize) in
  a ← store (FFTSubbands bd) SubbandIndex (f_of_int 0);
  let bd := with_FFTSubbands a bd in
  bd ← for_loop 0 Width (fun SubbandInternalIndex bd =>
          x ← at_ MagnitudeSpectrum (SubbandIndex * Width + SubbandInternalIndex);
          a ← modify (FFTSubbands bd) SubbandIndex (fun v => fadd v x);
          Some (with_FFTSubbands a bd)) bd;
  a ← modify (FFTSubbands bd) SubbandIndex (fun v => fmul v Scale);
  let bd := with_FFTSubbands a bd in
  bd ← for_loop 0 Width (fun SubbandInternalIndex bd =>
          x ← at_ MagnitudeSpectrum (SubbandIndex * Width + SubbandInternalIndex);
          m ← at_ (FFTSubbands bd) SubbandIndex;
          a ← modify (FFTVariance bd) SubbandIndex (fun v => fadd v (fpow2 (fsub x m)));
          Some (with_FFTVariance a bd)) bd;
  a ← modify (FFTVariance bd) SubbandIndex (fun v => fmul v Scale);
  let bd := with_FFTVariance a bd in
  v ← at_ (FFTVariance bd) SubbandIndex;
  a ← store (FFTBeatValues bd) SubbandIndex (BeatValue v);
  Some (with_FFTBeatValues a bd).

(** second loop of [UpdateFFT]: average of the energy history *)
Definition AverageStep (SubbandIndex : Z) (bd : UBeatDetection) : option UBeatDetection :=
  a ← store (FFTAverageEnergy bd) SubbandIndex (f_of_int 0);
  let bd := with_FFTAverageEnergy a bd in
  bd ← for_loop 0 (EnergyHistorySize bd) (fun EnergyHistoryIndex bd =>
          row ← at_ (EnergyHistory bd) SubbandIndex;
          x ← at_ row EnergyHistoryIndex;
          a ← modify (FFTAverageEnergy bd) SubbandIndex (fun v => fadd v x);
          Some (with_FFTAverageEnergy a bd)) bd;
  a ← modify (FFTAverageEnergy bd) SubbandIndex
             (fun v => fdiv v (f_of_int (EnergyHistorySize bd)));
  Some (with_FFTAverageEnergy a bd).

(** third loop of [UpdateFFT]: the new value enters the history *)
Definition HistoryStep (SubbandIndex : Z) (bd : UBeatDetection) : option UBeatDetection :=
  x ← at_ (FFTSubbands bd) SubbandIndex;
  row ← at_ (EnergyHistory bd) SubbandIndex;
  row' ← store row (HistoryPosition bd) x;
  eh ← store (EnergyHistory bd) SubbandIndex row';
  Some (with_EnergyHistory eh bd).

Definition UpdateFFT (MagnitudeSpectrum : list float) (bd : UBeatDetection)
  : option UBeatDetection :=
  bd ← for_loop 0 (FFTSubbandsSize bd) (SubbandStep MagnitudeSpectrum) bd;
  bd ← for_loop 0 (FFTSubbandsSize bd) AverageStep bd;
  bd ← for_loop 0 (FFTSubbandsSize bd) HistoryStep bd;
  (* integer [%] by zero has no result *)
  if decide (EnergyHistorySize bd = 0) then None
  else Some (with_HistoryPosition
               ((HistoryPosition bd + 1) `rem` EnergyHistorySize bd) bd).

Definition ProcessMagnitude (MagnitudeSpectrum : list float) (bd : UBeatDetection)
  : option UBeatDetection :=
  UpdateFFT MagnitudeSpectrum bd.

Definition IsBeat (SubBand : Z) (bd : UBeatDetection) : option bool :=
  if decide (SubBand >= FFTSubbandsSize bd) then Some false   (* logged *)
  else
    e ← at_ (FFTSubbands bd) SubBand;
    avg ← at_ (FFTAverageEnergy bd) SubBand;
    c ← at_ (FFTBeatValues bd) SubBand;
    Some (fgt e (fmul avg c)).

Definition IsBeatRange (Low High Threshold : Z) (bd : UBeatDetection) : option bool :=
  if negb (bool_decide (Low >= 0 /\ Low < FFTSubbandsSize bd)) then Some false
  else if negb (bool_decide (High >= 0 /\ High < FFTSubbandsSize bd)) then Some false
  else if negb (bool_decide (High > Low)) then Some false
  else
    NumOfBeats ← for_loop Low (High + 1) (fun Index NumOfBeats =>
                    b ← IsBeat Index bd;
                    Some (if b : bool then NumOfBeats + 1 else NumOfBeats)) 0;
    Some (bool_decide (NumOfBeats > Threshold)).

Definition IsSnare (bd : UBeatDetection) : option bool :=
  let Low := 1 in
  let High := FFTSubbandsSize bd `quot` 3 in
  let Threshold := (High - Low) `quot` 3 in
  IsBeatRange Low High Threshold bd.

Definition IsHiHat (bd : UBeatDetection) : option bool :=
  let Low := FFTSubbandsSize bd `quot` 2 in
  let High := FFTSubbandsSize bd - 1 in
  let Threshold := (High - Low) `quot` 3 in
  IsBeatRange Low High Threshold bd.

(** [n] consecutive calls of [ProcessMagnitude] with the same spectrum *)
Fixpoint Feed (n : nat) (MagnitudeSpectrum : list float) (bd : UBeatDetection)
  : option UBeatDetection :=
  match n with
  | O => Some bd
  | S n' => bd' ← ProcessMagnitude MagnitudeSpectrum bd; Feed n' MagnitudeSpectrum bd'
  end.
End BeatDetection.

(** ** AudioAnalysisToolsLibrary.cpp: reading a frame range *)

Section SoundWave.
Context {FA : FloatArith}.

(** What the function reads of [UImportedSoundWave] (a class of the
    audio importer, outside this repository): the interleaved PCM
    buffer [GetPCMBuffer().PCMData], its frame count
    [GetPCMBuffer().PCMNumOfFrames] ([uint32]) and [NumChannels] ([int32]). *)
Record UImportedSoundWave := mkSoundWave {
  PCMData : list float;
  PCMNumOfFrames : Z;
  NumChannels : Z
}.

Definition to_uint32 (x : Z) : Z := x `mod` 2 ^ 32.
Definition in_int32 (x : Z) : Prop := - 2 ^ 31 <= x < 2 ^ 31.

(** The result is the returned [bool] with the value of the output
    parameter [AudioFrame] after the call.  [None]: the call has no defined
    result (signed overflow of [StartFrame * NumChannels], or
    [TArray<float>(Ptr, Count)] copying from outside the buffer). *)
Definition GetAudioFrameFromSoundWaveByFramesCustom
    (ImportedSoundWave : UImportedSoundWave) (StartFrame EndFrame : Z)
    (AudioFrame : list float) : option (bool * list float) :=
  if negb (bool_decide (StartFrame >= 0 /\ StartFrame < EndFrame)) then Some (false, AudioFrame)
  else if negb (bool_decide (EndFrame > 0 /\ EndFrame > StartFrame)) then Some (false, AudioFrame)
  else if bool_decide (to_uint32 EndFrame > PCMNumOfFrames ImportedSoundWave)
  then Some (false, AudioFrame)
  else
    let NumChannels := NumChannels ImportedSoundWave in
    let Offset := StartFrame * NumChannels in
    if negb (bool_decide (in_int32 Offset)) then None
    else
      let Num := Z.of_nat (length (PCMData ImportedSoundWave)) in
      let RetrievedPCMDataSize := to_uint32 (EndFrame - StartFrame) in
      (* [!RetrievedPCMData]: a buffer without storage, read at its start *)
      if bool_decide (Num = 0 /\ Offset = 0) then Some (false, AudioFrame)
      else if bool_decide (RetrievedPCMDataSize <= 0) then Some (false, AudioFrame)
      else if bool_decide (RetrievedPCMDataSize > to_uint32 Num) then Some (false, AudioFrame)
      else if bool_decide (0 <= Offset /\ Offset + RetrievedPCMDataSize <= Num)
      then Some (true, take (Z.to_nat RetrievedPCMDataSize)
                            (drop (Z.to_nat Offset) (PCMData ImportedSoundWave)))
      else None.
End SoundWave.

(** ** Vocabulary of the properties *)

Section Vocabulary.
Context {FA : FloatArith}.

(** *** Class invariant of [UBeatDetection]: the five arrays have
    [FFTSubbandsSize] entries and every history row has
    [EnergyHistorySize] entries (none while that size is not positive). *)
Record wf (bd : UBeatDetection) : Prop := mk_wf {
  wf_size : 0 <= FFTSubbandsSize bd;
  wf_subbands : length (FFTSubbands bd) = Z.to_nat (FFTSubbandsSize bd);
  wf_average : length (FFTAverageEnergy bd) = Z.to_nat (FFTSubbandsSize bd);
  wf_variance : length (FFTVariance bd) = Z.to_nat (FFTSubbandsSize bd);
  wf_beat : length (FFTBeatValues bd) = Z.to_nat (FFTSubbandsSize bd);
  wf_history : length (EnergyHistory bd) = Z.to_nat (FFTSubbandsSize bd);
  wf_rows : Forall (fun row => length row = Z.to_nat (EnergyHistorySize bd))
                   (EnergyHistory bd)
}.

(** the state invariant of the design document *)
Definition positive_sizes (bd : UBeatDetection) : Prop :=
  0 < FFTSubbandsSize bd /\ 0 < EnergyHistorySize bd.

(** a detector on which [UpdateFFT] runs: the invariants above and a
    cursor inside the history *)
Definition ready (bd : UBeatDetection) : Prop :=
  wf bd /\ positive_sizes bd /\ 0 <= HistoryPosition bd < EnergyHistorySize bd.

(** the two sizes of a detector *)
Definition same_sizes (bd bd' : UBeatDetection) : Prop :=
  FFTSubbandsSize bd' = FFTSubbandsSize bd /\
  EnergyHistorySize bd' = EnergyHistorySize bd.

(** the cell [k] of the history of sub-band [s], if there is one *)
Definition HistoryCell (bd : UBeatDetection) (s k : nat) : option float :=
  row ← EnergyHistory bd !! s; row !! k.

(** *** What [UpdateFFT] computes, cell by cell *)

(** number of bins of a sub-band: [MagnitudeSpectrumSize / FFTSubbandsSize] *)
Definition Width (M : list float) (S : Z) : Z := Z.of_nat (length M) `quot` S.

(** the bins of sub-band [s] *)
Definition SubbandBins (M : list float) (S : Z) (s : nat) : list float :=
  take (Z.to_nat (Width M S)) (drop (s * Z.to_nat (Width M S)) M).

(** [static_cast<float>(FFTSubbandsSize) / MagnitudeSpectrumSize] *)
Definition Scale (M : list float) (S : Z) : float :=
  fdiv (f_of_int S) (f_of_int (Z.of_nat (length M))).

Definition SubbandValue (M : list float) (S : Z) (s : nat) : float :=
  fmul (foldl fadd (f_of_int 0) (SubbandBins M S s)) (Scale M S).

(** the new [FFTVariance[s]], from the value [old] it had before the call *)
Definition VarianceValue (M : list float) (S : Z) (s : nat) (old : float) : float :=
  fmul (foldl (fun v x => fadd v (fpow2 (fsub x (SubbandValue M S s)))) old
              (SubbandBins M S s))
       (Scale M S).

Definition AverageValue (H : Z) (row : list float) : float :=
  fdiv (foldl fadd (f_of_int 0) row) (f_of_int H).

(** [g] applied to the cells before [i], the others as they were *)
Definition upto {A} (i : nat) (g : nat -> A -> A) (l : list A) : list A :=
  imap (fun j x => if decide (j < i)%nat then g j x else x) l.

(** the state [UpdateFFT M bd] returns on a [ready] detector *)
Definition UpdateFFT_result (M : list float) (bd : UBeatDetection) : UBeatDetection :=
  let S := FFTSubbandsSize bd in
  let H := EnergyHistorySize bd in
  mkBeatDetection
    ((HistoryPosition bd + 1) `rem` H) S H
    (imap (fun s _ => SubbandValue M S s) (FFTSubbands bd))
    (imap (fun s _ => AverageValue H (default [] (EnergyHistory bd !! s)))
          (FFTAverageEnergy bd))
    (imap (fun s v => VarianceValue M S s v) (FFTVariance bd))
    (imap (fun s _ => BeatValue (VarianceValue M S s
                                   (default (f_of_int 0) (FFTVariance bd !! s))))
          (FFTBeatValues bd))
    (imap (fun s row => <[Z.to_nat (HistoryPosition bd) := SubbandValue M S s]> row)
          (EnergyHistory bd)).

(** *** The states between the iterations of its three loops *)

(** the state while the first loop of [UpdateFFT] is at sub-band [j] *)
Definition SubbandLoopState (M : list float) (bd : UBeatDetection) (j : nat)
  : UBeatDetection :=
  let S := FFTSubbandsSize bd in
  mkBeatDetection (HistoryPosition bd) S (EnergyHistorySize bd)
    (upto j (fun s _ => SubbandValue M S s) (FFTSubbands bd))
    (FFTAverageEnergy bd)
    (upto j (fun s v => VarianceValue M S s v) (FFTVariance bd))
    (upto j (fun s _ => BeatValue (VarianceValue M S s
                                     (default (f_of_int 0) (FFTVariance bd !! s))))
          (FFTBeatValues bd))
    (EnergyHistory bd).

(** the state while the second loop of [UpdateFFT] is at sub-band [j] *)
Definition AverageLoopState (bd : UBeatDetection) (j : nat) : UBeatDetection :=
  with_FFTAverageEnergy
    (upto j (fun s _ => AverageValue (EnergyHistorySize bd)
                                     (default [] (EnergyHistory bd !! s)))
          (FFTAverageEnergy bd))
    bd.

(** the state while the third loop of [UpdateFFT] is at sub-band [j];
    [e s] is the value of [FFTSubbands[s]] *)
Definition HistoryLoopState (e : nat -> float) (bd : UBeatDetection) (j : nat)
  : UBeatDetection :=
  with_EnergyHistory
    (upto j (fun s row => <[Z.to_nat (HistoryPosition bd) := e s]> row)
          (EnergyHistory bd))
    bd.

(** *** Textbook statistics of a list of bins, in the arithmetic of the code *)
Definition fsum (l : list float) : float := foldl fadd (f_of_int 0) l.
Definition mean (l : list float) : float :=
  fdiv (fsum l) (f_of_int (Z.of_nat (length l))).
(** mean squared deviation of [l] around [m] *)
Definition variance_around (m : float) (l : list float) : float :=
  fdiv (fsum (map (fun x => fpow2 (fsub x m)) l)) (f_of_int (Z.of_nat (length l))).

(** number of sub-bands of [Low..High] on which [IsBeat] answers [true] *)
Definition CountBeats (Low High : Z) (bd : UBeatDetection) : Z :=
  Z.of_nat (length (filter (fun s => IsBeat s bd = Some true)
                           (seqZ Low (High + 1 - Low)))).


(** a sound wave whose buffer holds [PCMNumOfFrames] interleaved frames of
    [NumChannels] samples, all within the machine ranges *)
Definition consistent_wave (w : UImportedSoundWave) : Prop :=
  1 <= NumChannels w /\ 0 <= PCMNumOfFrames w /\
  Z.of_nat (length (PCMData w)) = PCMNumOfFrames w * NumChannels w /\
  Z.of_nat (length (PCMData w)) < 2 ^ 31.
End Vocabulary.

(** a binary32 number given by an integer *)
Definition f32 (n : Z) : spec_float := B32.of_Z n.

(** the call hands an ordinary number (no NaN, no infinity, no failure)
    back to its caller *)
Definition returns_number (r : option spec_float) : Prop :=
  exists x, r = Some x /\ B32.is_finite x = true.


(** [n] calls with [M] on a detector fresh from [CreateBeatDetection(S, H)],
    in binary32 *)
Definition FeedFresh (S H : Z) (n : nat) (M : list spec_float)
  : option (UBeatDetection (FA:=binary32)) :=
  bd ← CreateBeatDetection (FA:=binary32) S H; Feed (FA:=binary32) n M bd.


(** the next call on the result of a call, if that one returned *)
Definition and_then {A B : Type} (r : option A) (f : A -> option B) : option B :=
  r ≫= f.


(** every one of the four sub-bands reports no beat *)
Definition silent_everywhere (r : option (UBeatDetection (FA:=binary32))) : bool :=
  match r with
  | Some bd => forallb (fun s => bool_decide (IsBeat s bd = Some false)) (seqZ 0 4)
  | None => false
  end.


(** ** BeatDetection.cpp: [GetBand], and sequences of calls *)

Section MoreBeatDetection.
Context {FA : FloatArith}.

(** [UBeatDetection::GetBand] *)
Definition GetBand (Subband : Z) (bd : UBeatDetection) : option float :=
  if negb (bool_decide (Subband > 0 /\ Subband < FFTSubbandsSize bd))
  then Some (f_of_int (-1))                                   (* logged *)
  else at_ (FFTSubbands bd) Subband.

(** consecutive calls of [ProcessMagnitude], one per spectrum of the list *)
Fixpoint FeedAll (Spectra : list (list float)) (bd : UBeatDetection)
  : option UBeatDetection :=
  match Spectra with
  | [] => Some bd
  | M :: Spectra' => bd' ← ProcessMagnitude M bd; FeedAll Spectra' bd'
  end.

(** the detector [CreateBeatDetection(S, H)] returns for positive sizes *)
Definition FreshDetector (S H : Z) : UBeatDetection :=
  let zeros := replicate (Z.to_nat S) (f_of_int 0) in
  mkBeatDetection 0 S H zeros zeros zeros zeros
    (replicate (Z.to_nat S) (replicate (Z.to_nat H) (f_of_int 0))).
End MoreBeatDetection.

(** a detector of three sub-bands with a history of one entry, in binary32 *)
Definition ThreeBandDetector : UBeatDetection (FA:=binary32) :=
  mkBeatDetection (FA:=binary32) 0 3 1
    [f32 5; f32 1; f32 7] [f32 2; f32 2; f32 2] [f32 0; f32 0; f32 0]
    [f32 1; f32 1; f32 1] [[f32 5]; [f32 1]; [f32 7]].

(** ** Vocabulary of the time-domain properties *)

Section TimeDomainVocabulary.
Context {FA : FloatArith}.

(** [ZeroCrossingRateValue += 1.0]: the sum is taken in [double] and stored
    into the [float] *)
Definition CountUp (v : float) : float :=
  f_of_double (dadd (d_of_float v) (d_lit 1 0)).

(** number of pairs of neighbouring samples of which exactly one is
    positive *)
Fixpoint SignChanges (AudioFrame : list float) : nat :=
  match AudioFrame with
  | prev :: (cur :: _) as rest =>
      ((if negb (eqb (fgt cur (f_of_int 0)) (fgt prev (f_of_int 0))) then 1 else 0)
       + SignChanges rest)%nat
  | _ => 0%nat
  end.
End TimeDomainVocabulary.

(** every cell of the energy history is a non-negative real *)
Definition nonnegative_history (bd : UBeatDetection (FA:=exact)) : Prop :=
  Forall (Forall (fun x : R => (0 <= x)%R)) (EnergyHistory bd).

(** * Properties *)

(** ** Arrays and loops *)

Section ArrayFacts.
Context {A : Type}.
Implicit Types (a : list A) (i : Z) (x : A).

Lemma at_nat a (n : nat) : at_ a (Z.of_nat n) = a !! n.
Proof.
  unfold at_. destruct (decide (0 <= Z.of_nat n)) as [_|Hn]; [|lia].
  by rewrite Nat2Z.id.
Qed.

Lemma at_negative a i : i < 0 -> at_ a i = None.
Proof. intros Hi. unfold at_. destruct (decide (0 <= i)); [lia|done]. Qed.

Lemma at_is_Some a i : is_Some (at_ a i) <-> 0 <= i < Z.of_nat (length a).
Proof.
  unfold at_. destruct (decide (0 <= i)) as [Hi|Hi].
  - rewrite lookup_lt_is_Some. lia.
  - split; [intros [? ?]; discriminate | lia].
Qed.

Lemma store_nat a (n : nat) x :
  (n < length a)%nat -> store a (Z.of_nat n) x = Some (<[n := x]> a).
Proof.
  intros Hn. unfold store.
  destruct (decide (0 <= Z.of_nat n < Z.of_nat (length a))) as [_|Hn']; [|lia].
  by rewrite Nat2Z.id.
Qed.

Lemma modify_nat a (n : nat) x f :
  a !! n = Some x -> modify a (Z.of_nat n) f = Some (<[n := f x]> a).
Proof.
  intros Hx. unfold modify. rewrite at_nat, Hx. simpl.
  apply store_nat. by apply lookup_lt_is_Some.
Qed.

Lemma SetNum_length (d : A) (n : Z) a : length (SetNum d n a) = Z.to_nat n.
Proof. apply length_resize. Qed.

(** [SetNum] keeps the cells that stay and default-constructs the new ones *)
Lemma SetNum_lookup (d : A) (n : Z) a (j : nat) :
  (j < Z.to_nat n)%nat ->
  SetNum d n a !! j = Some (default d (a !! j)).
Proof.
  intros Hj. unfold SetNum.
  destruct (decide (j < length a)%nat) as [Hlt|Hge].
  - rewrite lookup_resize by done.
    destruct (lookup_lt_is_Some_2 a j Hlt) as [x Hx]. by rewrite Hx.
  - rewrite lookup_resize_new by lia.
    by rewrite (lookup_ge_None_2 a j) by lia.
Qed.

(** *** [upto]: the array while a loop walks over it *)

Lemma upto_length (n : nat) (g : nat -> A -> A) a : length (upto n g a) = length a.
Proof. apply length_imap. Qed.

Lemma upto_lookup (n : nat) g a (j : nat) :
  upto n g a !! j = (fun x => if decide (j < n)%nat then g j x else x) <$> a !! j.
Proof. unfold upto. by rewrite list_lookup_imap. Qed.

Lemma upto_0 g a : upto 0 g a = a.
Proof.
  apply list_eq. intros j. rewrite upto_lookup.
  destruct (a !! j); simpl; [|done].
  destruct (decide (j < 0)%nat); [lia|done].
Qed.

Lemma upto_all (n : nat) g a : (length a <= n)%nat -> upto n g a = imap g a.
Proof.
  intros Hn. apply list_eq. intros j. rewrite upto_lookup, list_lookup_imap.
  destruct (a !! j) eqn:Hj; simpl; [|done].
  apply lookup_lt_Some in Hj.
  destruct (decide (j < n)%nat); [done|lia].
Qed.

(** the cell at the loop index is still the original one *)
Lemma upto_lookup_here (n : nat) g a : upto n g a !! n = a !! n.
Proof.
  rewrite upto_lookup. destruct (a !! n); simpl; [|done].
  destruct (decide (n < n)%nat); [lia|done].
Qed.

Lemma upto_step (n : nat) g a x :
  a !! n = Some x -> <[n := g n x]> (upto n g a) = upto (S n) g a.
Proof.
  intros Hx. apply list_eq. intros j.
  destruct (decide (n = j)) as [<-|Hne].
  - rewrite list_lookup_insert_eq
      by (rewrite upto_length; by apply lookup_lt_is_Some).
    rewrite upto_lookup, Hx. simpl.
    destruct (decide (n < S n)%nat); [done|lia].
  - rewrite list_lookup_insert_ne by done.
    rewrite !upto_lookup. destruct (a !! j); simpl; [|done].
    destruct (decide (j < n)%nat), (decide (j < S n)%nat); try done; lia.
Qed.
End ArrayFacts.

Section LoopFacts.
Context {St : Type}.
Implicit Types (body : Z -> St -> option St) (st : St).

(** Invariant rule of the counted loop: it terminates with a result when
    every iteration does, and carries the invariant to the end. *)
Lemma for_count_inv (Inv : Z -> St -> Prop) (n : nat) (lo : Z) body st :
  Inv lo st ->
  (forall i s, lo <= i < lo + Z.of_nat n -> Inv i s ->
               exists s', body i s = Some s' /\ Inv (i + 1) s') ->
  exists st', for_count n lo body st = Some st' /\ Inv (lo + Z.of_nat n) st'.
Proof.
  revert lo st. induction n as [|n IH]; intros lo st H0 Hstep.
  - exists st. split; [done|]. by replace (lo + Z.of_nat 0) with lo by lia.
  - destruct (Hstep lo st) as (s' & Hb & Hs'); [lia|done|].
    destruct (IH (lo + 1) s') as (st' & Hrun & Hend); [done| |].
    + intros i s Hi. apply Hstep. lia.
    + exists st'. split.
      * simpl. rewrite Hb. simpl. exact Hrun.
      * by replace (lo + Z.of_nat (S n)) with (lo + 1 + Z.of_nat n) by lia.
Qed.

(** the same with the state given in closed form, from index 0 *)
Lemma for_loop_closed (F : nat -> St) (hi : Z) body st :
  st = F 0%nat ->
  (forall j : nat, Z.of_nat j < hi -> body (Z.of_nat j) (F j) = Some (F (S j))) ->
  for_loop 0 hi body st = Some (F (Z.to_nat hi)).
Proof.
  intros -> Hstep. unfold for_loop.
  destruct (for_count_inv (fun i s => s = F (Z.to_nat i))
              (Z.to_nat (hi - 0)) 0 body (F 0%nat)) as (st' & Hrun & Hend).
  - done.
  - intros i s Hi ->. exists (F (S (Z.to_nat i))). split.
    + rewrite <- Hstep by lia. f_equal. lia.
    + f_equal. lia.
  - rewrite Hrun, Hend. do 2 f_equal. lia.
Qed.

(** a property every iteration keeps holds at the end, if there is one *)
Lemma for_count_preserves (P : St -> Prop) (n : nat) (lo : Z) body st st' :
  (forall i s s', body i s = Some s' -> P s -> P s') ->
  P st -> for_count n lo body st = Some st' -> P st'.
Proof.
  intros Hstep. revert lo st. induction n as [|n IH]; intros lo st HP Hrun.
  - simpl in Hrun. by inversion Hrun; subst.
  - simpl in Hrun. destruct (body lo st) as [s|] eqn:Hb; [|discriminate].
    simpl in Hrun. eapply IH; [|exact Hrun]. eauto.
Qed.
End LoopFacts.

(** ** Time-domain features *)

Section TimeDomainFacts.
Context {FA : FloatArith}.

(** The zero-crossing loop reads inside the frame: the function always
    returns. *)
Lemma GetZeroCrossingRate_total (AudioFrame : list float) :
  is_Some (GetZeroCrossingRate AudioFrame).
Proof.
  unfold GetZeroCrossingRate, for_loop.
  destruct (for_count_inv (fun _ _ => True)
              (Z.to_nat (Z.of_nat (length AudioFrame) - 1)) 1
              (ZeroCrossingStep AudioFrame) (f_of_int 0)) as (r & Hr & _).
  - done.
  - intros i z Hi _. unfold ZeroCrossingStep.
    destruct (proj2 (at_is_Some AudioFrame i)) as [cur ->]; [lia|].
    destruct (proj2 (at_is_Some AudioFrame (i - 1))) as [prev ->]; [lia|].
    simpl. destruct (negb _); eauto.
  - rewrite Hr. eauto.
Qed.

(** no pair of equal neighbours is a crossing *)
Lemma GetZeroCrossingRate_constant (c : float) (N : nat) :
  GetZeroCrossingRate (replicate N c) = Some (f_of_int 0).
Proof.
  unfold GetZeroCrossingRate, for_loop. rewrite length_replicate.
  destruct (for_count_inv (fun _ z => z = f_of_int 0)
              (Z.to_nat (Z.of_nat N - 1)) 1
              (ZeroCrossingStep (replicate N c)) (f_of_int 0)) as (r & Hr & ->).
  - done.
  - intros i z Hi ->. exists (f_of_int 0). split; [|done].
    unfold ZeroCrossingStep.
    replace i with (Z.of_nat (Z.to_nat i)) at 1 by lia.
    replace (i - 1) with (Z.of_nat (Z.to_nat (i - 1))) by lia.
    rewrite !at_nat, !lookup_replicate_2 by lia. simpl.
    by destruct (fgt c (f_of_int 0)).
  - exact Hr.
Qed.

Lemma PeakEnergy_settled (p : float) (N : nat) (c : float) :
  fgt (fabs c) p = false ->
  foldl (fun Peak Frame => let AbsSample := fabs Frame in
                           if fgt AbsSample Peak then AbsSample else Peak)
        p (replicate N c) = p.
Proof.
  intros Hp. induction N as [|N IH]; [done|]. simpl. by rewrite Hp.
Qed.

(** the peak of a constant frame, in any arithmetic where [|c|] exceeds
    the initial value and not itself *)
Lemma GetPeakEnergy_constant (c : float) (N : nat) :
  (0 < N)%nat ->
  fgt (fabs c) (f_of_int (-10000)) = true ->
  fgt (fabs c) (fabs c) = false ->
  GetPeakEnergy (replicate N c) = fabs c.
Proof.
  intros HN Hinit Hself. destruct N as [|N]; [lia|].
  unfold GetPeakEnergy. simpl. rewrite Hinit. by apply PeakEnergy_settled.
Qed.
End TimeDomainFacts.

Lemma Rgtb_true (a b : R) : (b < a)%R -> Rgtb a b = true.
Proof. intros H. unfold Rgtb. by destruct (Rlt_dec b a). Qed.

Lemma Rgtb_false (a b : R) : (a <= b)%R -> Rgtb a b = false.
Proof. intros H. unfold Rgtb. destruct (Rlt_dec b a); [lra|done]. Qed.

Lemma sum_squares_constant (c a : R) (N : nat) :
  foldl (fun Sum Frame => fadd (FloatArith:=exact) Sum (fpow2 (FA:=exact) Frame))
        a (replicate N c) = (a + INR N * (c * c))%R.
Proof.
  revert a. induction N as [|N IH]; intros a.
  - simpl. lra.
  - change (replicate (S N) c) with (c :: replicate N c).
    simpl foldl. rewrite IH, S_INR. unfold fpow2. simpl. lra.
Qed.

(** C7, as the code has it: on an empty frame no function reports an error.
    [GetRootMeanSquare] returns the NaN of [0/0], [GetPeakEnergy] the value
    [-10000] its search starts from, [GetZeroCrossingRate] the count [0]. *)
Theorem empty_frame_results :
  GetRootMeanSquare (FA:=binary32) [] = S754_nan /\
  GetPeakEnergy (FA:=binary32) [] = f32 (-10000) /\
  GetZeroCrossingRate (FA:=binary32) [] = Some (f32 0).
Proof. vm_compute. repeat split; reflexivity. Qed.

(** C7, as stated, fails: on the empty frame [GetPeakEnergy] and
    [GetZeroCrossingRate] hand ordinary (finite) numbers back. *)
Lemma empty_frame_is_answered :
  returns_number (Some (GetPeakEnergy (FA:=binary32) [])) /\
  returns_number (GetZeroCrossingRate (FA:=binary32) []).
Proof.
  split.
  - exists (f32 (-10000)). vm_compute. split; reflexivity.
  - exists (f32 0). vm_compute. split; reflexivity.
Qed.

(** In binary32 itself the peak and the zero-crossing count of a constant
    frame are bit-exact, for every [c] that is not a NaN. *)
Lemma constant_frame_binary32 (c : spec_float) (N : nat) :
  (0 < N)%nat -> B32.is_nan c = false ->
  GetPeakEnergy (FA:=binary32) (replicate N c) = SFabs c /\
  GetZeroCrossingRate (FA:=binary32) (replicate N c) = Some (f32 0).
Proof.
  intros HN Hc. split.
  - apply (GetPeakEnergy_constant (FA:=binary32)); [done| |].
    + by destruct c as [s|s| |s m e].
    + destruct c as [s|s| |s m e]; try done.
      simpl. unfold B32.gt, SFltb, SFcompare. simpl.
      by rewrite Z.compare_refl, Pos.compare_cont_refl.
  - apply (GetZeroCrossingRate_constant (FA:=binary32)).
Qed.

(** C8, as the code has it: on a frame of [N >= 1] samples all equal to
    [c], the peak is [|c|] and the zero-crossing count is [0], bit-exactly
    in binary32 for every sample value [x] that is not a NaN (and over the
    real numbers); the root mean square is [|c|] when the arithmetic of the
    code is exact, that is, read over the real numbers. *)
Theorem constant_frame_features (c : R) (x : spec_float) (N : nat) :
  (0 < N)%nat -> B32.is_nan x = false ->
  (GetRootMeanSquare (FA:=exact) (replicate N c) = Rabs c /\
   GetPeakEnergy (FA:=exact) (replicate N c) = Rabs c /\
   GetZeroCrossingRate (FA:=exact) (replicate N c) = Some 0%R) /\
  (GetPeakEnergy (FA:=binary32) (replicate N x) = SFabs x /\
   GetZeroCrossingRate (FA:=binary32) (replicate N x) = Some (f32 0)).
Proof.
  intros HN Hx. split; [|by apply constant_frame_binary32].
  split; [|split].
  - unfold GetRootMeanSquare. rewrite sum_squares_constant, length_replicate.
    simpl. rewrite <- INR_IZR_INZ.
    assert (0 < INR N)%R by (apply lt_0_INR; lia).
    replace ((0 + INR N * (c * c)) / INR N)%R with (Rsqr c)
      by (unfold Rsqr; field; lra).
    apply sqrt_Rsqr_abs.
  - apply (GetPeakEnergy_constant (FA:=exact)); [done| |]; simpl.
    + apply Rgtb_true. pose proof (Rabs_pos c). lra.
    + apply Rgtb_false. lra.
  - apply (GetZeroCrossingRate_constant (FA:=exact)).
Qed.

Lemma constant_frame_features_witness :
  (GetRootMeanSquare (FA:=exact) (replicate 3 2%R) = Rabs 2 /\
   GetPeakEnergy (FA:=exact) (replicate 3 2%R) = Rabs 2 /\
   GetZeroCrossingRate (FA:=exact) (replicate 3 2%R) = Some 0%R) /\
  (GetPeakEnergy (FA:=binary32) (replicate 3 (f32 (-2))) = SFabs (f32 (-2)) /\
   GetZeroCrossingRate (FA:=binary32) (replicate 3 (f32 (-2))) = Some (f32 0)).
Proof. apply (constant_frame_features 2 (f32 (-2)) 3); [lia|reflexivity]. Defined.

(** C8, as stated, fails in the arithmetic of the code: seven samples of
    [0.3f] (the binary32 number [10066330 * 2^-25]) have the root mean
    square [10066329 * 2^-25], one unit in the last place below. *)
Lemma rms_of_constant_frame_rounds :
  let c := B32.div (f32 3) (f32 10) in
  c = S754_finite false 10066330 (-25) /\
  SFabs c = c /\
  GetRootMeanSquare (FA:=binary32) (replicate 7 c) = S754_finite false 10066329 (-25) /\
  B32.gt c (GetRootMeanSquare (FA:=binary32) (replicate 7 c)) = true.
Proof. vm_compute. repeat split; reflexivity. Qed.


(** ** Beat detection: sizes and resizing *)

Section ResizeFacts.
Context {FA : FloatArith}.
Implicit Types (bd : UBeatDetection).

Lemma UpdateEnergyHistorySize_rejects (h : Z) bd :
  h <= 0 -> UpdateEnergyHistorySize h bd = Some bd.
Proof. intros Hh. unfold UpdateEnergyHistorySize. by destruct (decide (h <= 0)). Qed.

Lemma UpdateFFTSubbandsSize_rejects (n : Z) bd :
  n <= 0 -> UpdateFFTSubbandsSize n bd = Some bd.
Proof. intros Hn. unfold UpdateFFTSubbandsSize. by destruct (decide (n <= 0)). Qed.

(** an accepted history resize applies [SetNum] to every row and touches
    nothing else *)
Lemma UpdateEnergyHistorySize_accepts (h : Z) bd :
  0 < h -> length (EnergyHistory bd) = Z.to_nat (FFTSubbandsSize bd) ->
  UpdateEnergyHistorySize h bd =
    Some (with_EnergyHistory (SetNum (f_of_int 0) h <$> EnergyHistory bd)
                             (with_EnergyHistorySize h bd)).
Proof.
  intros Hh Hlen. unfold UpdateEnergyHistorySize.
  destruct (decide (h <= 0)); [lia|].
  set (g := fun (_ : nat) (row : list float) => SetNum (f_of_int 0) h row).
  set (F := fun j : nat =>
              with_EnergyHistory (upto j g (EnergyHistory bd))
                                 (with_EnergyHistorySize h bd)).
  change (FFTSubbandsSize (with_EnergyHistorySize h bd)) with (FFTSubbandsSize bd).
  rewrite (for_loop_closed F).
  - unfold F. rewrite upto_all by lia. unfold g.
    by rewrite <- (imap_const (SetNum (f_of_int 0) h)).
  - unfold F. rewrite upto_0. by destruct bd.
  - intros j Hj. unfold ResizeHistoryStep, F. simpl.
    destruct (lookup_lt_is_Some_2 (EnergyHistory bd) j) as [row Hrow]; [lia|].
    rewrite at_nat, upto_lookup_here, Hrow. simpl.
    rewrite store_nat by (rewrite upto_length; lia). simpl.
    by rewrite <- (upto_step j g _ row Hrow).
Qed.

Lemma UpdateFFTSubbandsSize_accepts (n : Z) bd :
  0 < n ->
  UpdateFFTSubbandsSize n bd =
    UpdateEnergyHistorySize (EnergyHistorySize bd)
      (mkBeatDetection (HistoryPosition bd) n (EnergyHistorySize bd)
         (SetNum (f_of_int 0) n (FFTSubbands bd))
         (SetNum (f_of_int 0) n (FFTAverageEnergy bd))
         (SetNum (f_of_int 0) n (FFTVariance bd))
         (SetNum (f_of_int 0) n (FFTBeatValues bd))
         (SetNum [] n (EnergyHistory bd))).
Proof. intros Hn. unfold UpdateFFTSubbandsSize. destruct (decide (n <= 0)); [lia|done]. Qed.

Lemma wf_NewObject (h : Z) : wf (with_EnergyHistorySize h NewObject).
Proof. by split; simpl. Qed.

Lemma UpdateEnergyHistorySize_wf (h : Z) bd :
  wf bd ->
  exists bd', UpdateEnergyHistorySize h bd = Some bd' /\ wf bd' /\
    FFTSubbandsSize bd' = FFTSubbandsSize bd /\
    HistoryPosition bd' = HistoryPosition bd /\
    EnergyHistorySize bd' = (if decide (h <= 0) then EnergyHistorySize bd else h).
Proof.
  intros Hwf. destruct (decide (h <= 0)) as [Hh|Hh].
  - exists bd. by rewrite UpdateEnergyHistorySize_rejects.
  - rewrite UpdateEnergyHistorySize_accepts by (lia || apply Hwf).
    eexists. split; [done|]. split; [|done].
    destruct Hwf. split; simpl; try done.
    + by rewrite length_fmap.
    + apply Forall_fmap, Forall_true. intros row. simpl. apply SetNum_length.
Qed.

Lemma UpdateFFTSubbandsSize_wf (n : Z) bd :
  wf bd ->
  exists bd', UpdateFFTSubbandsSize n bd = Some bd' /\ wf bd' /\
    EnergyHistorySize bd' = EnergyHistorySize bd /\
    HistoryPosition bd' = HistoryPosition bd /\
    FFTSubbandsSize bd' = (if decide (n <= 0) then FFTSubbandsSize bd else n).
Proof.
  intros Hwf. destruct (decide (n <= 0)) as [Hn|Hn].
  - exists bd. by rewrite UpdateFFTSubbandsSize_rejects.
  - rewrite UpdateFFTSubbandsSize_accepts by lia.
    destruct (decide (EnergyHistorySize bd <= 0)) as [Hh|Hh].
    + (* no history yet: the rows, old and new, are empty *)
      rewrite UpdateEnergyHistorySize_rejects by done.
      eexists. split; [done|]. split; [|done].
      destruct Hwf. split; simpl; try apply SetNum_length; [lia|].
      apply Forall_resize; [|done]. simpl. lia.
    + rewrite UpdateEnergyHistorySize_accepts
        by (simpl; try apply SetNum_length; lia).
      eexists. split; [done|]. split; [|done].
      split; simpl; try apply SetNum_length; [lia| |].
      * by rewrite length_fmap, SetNum_length.
      * apply Forall_fmap, Forall_true. intros row. simpl. apply SetNum_length.
Qed.

(** the constructor followed by the two resizes always returns *)
Lemma CreateBeatDetection_wf (n h : Z) :
  exists bd, CreateBeatDetection n h = Some bd /\ wf bd /\
    HistoryPosition bd = 0 /\ EnergyHistorySize bd = h /\
    FFTSubbandsSize bd = (if decide (n <= 0) then 0 else n).
Proof.
  unfold CreateBeatDetection.
  destruct (UpdateFFTSubbandsSize_wf n (with_EnergyHistorySize h NewObject)
              (wf_NewObject h)) as (bd & -> & Hwf & HH & Hpos & HS).
  by exists bd.
Qed.
End ResizeFacts.

(** ** Beat detection: one call of [UpdateFFT] *)

Section AccumulateFacts.
Context {St A X : Type}.

(** A loop that folds the values [xs] into cell [j] of one array of the
    state ([a op= x] at every iteration) leaves the fold in that cell. *)
Lemma for_loop_accumulate (set : list A -> St) (f : A -> X -> A) (j : nat)
    (xs : list X) (hi : Z) (body : Z -> St -> option St) (a0 : list A) (v0 : A) :
  hi = Z.of_nat (length xs) ->
  a0 !! j = Some v0 ->
  (forall (k : nat) a x, xs !! k = Some x -> length a = length a0 ->
     body (Z.of_nat k) (set a) =
       a' ← modify a (Z.of_nat j) (fun v => f v x); Some (set a')) ->
  for_loop 0 hi body (set a0) = Some (set (<[j := foldl f v0 xs]> a0)).
Proof.
  intros -> Hj Hbody.
  set (F := fun k : nat => set (<[j := foldl f v0 (take k xs)]> a0)).
  assert (j < length a0)%nat as Hlt by (by apply lookup_lt_is_Some).
  rewrite (for_loop_closed F).
  - unfold F. by rewrite Nat2Z.id, firstn_all.
  - unfold F. simpl. by rewrite list_insert_id.
  - intros k Hk. unfold F.
    destruct (lookup_lt_is_Some_2 xs k) as [x Hx]; [lia|].
    rewrite (Hbody k _ x Hx) by apply length_insert.
    rewrite (modify_nat _ j (foldl f v0 (take k xs)))
      by (by apply list_lookup_insert_eq).
    simpl. rewrite list_insert_insert_eq.
    by rewrite (take_S_r xs k x Hx), foldl_app.
Qed.
End AccumulateFacts.

Section UpdateFacts.
Context {FA : FloatArith}.
Implicit Types (bd : UBeatDetection) (M : list float).

Lemma Width_bounds M (S : Z) :
  0 < S -> 0 <= Width M S /\ S * Width M S <= Z.of_nat (length M).
Proof.
  intros HS. unfold Width. rewrite Z.quot_div_nonneg by lia. split.
  - apply Z.div_pos; lia.
  - apply Z.mul_div_le. lia.
Qed.

Lemma SubbandBins_length M (S : Z) (s : nat) :
  0 < S -> Z.of_nat s < S ->
  length (SubbandBins M S s) = Z.to_nat (Width M S).
Proof.
  intros HS Hs. destruct (Width_bounds M S HS) as [HW Hle].
  unfold SubbandBins. rewrite length_take, length_drop. nia.
Qed.

(** the loop index [SubbandIndex * Width + SubbandInternalIndex] stays
    inside the spectrum and reads the bins of the sub-band in order *)
Lemma SubbandBins_lookup M (S : Z) (s k : nat) x :
  0 < S -> Z.of_nat s < S ->
  SubbandBins M S s !! k = Some x ->
  at_ M (Z.of_nat s * Width M S + Z.of_nat k) = Some x.
Proof.
  intros HS Hs Hx. destruct (Width_bounds M S HS) as [HW Hle].
  assert (k < Z.to_nat (Width M S))%nat as Hk.
  { apply lookup_lt_Some in Hx. rewrite SubbandBins_length in Hx; done. }
  unfold SubbandBins in Hx. rewrite lookup_take_lt, lookup_drop in Hx by done.
  replace (Z.of_nat s * Width M S + Z.of_nat k)
    with (Z.of_nat (s * Z.to_nat (Width M S) + k)) by lia.
  by rewrite at_nat.
Qed.
End UpdateFacts.

Section UpdateCall.
Context {FA : FloatArith}.
Implicit Types (bd : UBeatDetection) (M : list float).

Lemma SubbandStep_closed M bd (j : nat) :
  wf bd -> Z.of_nat j < FFTSubbandsSize bd ->
  SubbandStep M (Z.of_nat j) (SubbandLoopState M bd j)
  = Some (SubbandLoopState M bd (S j)).
Proof.
  intros Hwf Hj. destruct Hwf.
  assert (0 < FFTSubbandsSize bd) as HS by lia.
  destruct (lookup_lt_is_Some_2 (FFTSubbands bd) j) as [e0 He0]; [lia|].
  destruct (lookup_lt_is_Some_2 (FFTVariance bd) j) as [v0 Hv0]; [lia|].
  destruct (lookup_lt_is_Some_2 (FFTBeatValues bd) j) as [c0 Hc0]; [lia|].
  assert (Width M (FFTSubbandsSize bd)
          = Z.of_nat (length (SubbandBins M (FFTSubbandsSize bd) j))) as Hlen.
  { rewrite SubbandBins_length by done. symmetry. apply Z2Nat.id, Width_bounds, HS. }
  unfold SubbandStep. simpl.
  fold (Width M (FFTSubbandsSize bd)). fold (Scale M (FFTSubbandsSize bd)).
  rewrite store_nat by (rewrite upto_length; lia). simpl.
  (* summing the bins *)
  rewrite (for_loop_accumulate
             (fun a => with_FFTSubbands a (SubbandLoopState M bd j))
             fadd j (SubbandBins M (FFTSubbandsSize bd) j) _ _ _ (f_of_int 0) Hlen).
  2: { apply list_lookup_insert_eq. rewrite upto_length. lia. }
  2: { intros k a x Hx _.
       by rewrite (SubbandBins_lookup M _ j k x HS Hj Hx). }
  simpl. rewrite list_insert_insert_eq.
  erewrite modify_nat
    by (apply list_lookup_insert_eq; rewrite upto_length; lia).
  simpl. rewrite list_insert_insert_eq.
  fold (SubbandValue M (FFTSubbandsSize bd) j).
  rewrite (upto_step j (fun s _ => SubbandValue M (FFTSubbandsSize bd) s) _ e0 He0).
  set (gsub := fun (s : nat) (_ : float) => SubbandValue M (FFTSubbandsSize bd) s).
  set (gvar := fun (s : nat) (v : float) => VarianceValue M (FFTSubbandsSize bd) s v).
  match goal with
  | |- context [with_FFTSubbands ?a (with_FFTSubbands ?b ?base)] =>
      change (with_FFTSubbands a (with_FFTSubbands b base))
        with (with_FFTVariance (upto j gvar (FFTVariance bd))
                               (with_FFTSubbands a base))
  end.
  (* summing the squared deviations onto the old variance cell *)
  rewrite (for_loop_accumulate
             (fun a => with_FFTVariance a
                         (with_FFTSubbands (upto (S j) gsub (FFTSubbands bd))
                                           (SubbandLoopState M bd j)))
             (fun v x => fadd v (fpow2 (fsub x (SubbandValue M (FFTSubbandsSize bd) j))))
             j (SubbandBins M (FFTSubbandsSize bd) j) _ _ _ v0 Hlen).
  2: { by rewrite upto_lookup_here. }
  2: { intros k a x Hx _.
       rewrite (SubbandBins_lookup M _ j k x HS Hj Hx). simpl.
       rewrite at_nat, <- (upto_step j gsub _ e0 He0).
       rewrite list_lookup_insert_eq by (rewrite upto_length; lia). done. }
  simpl.
  erewrite modify_nat
    by (apply list_lookup_insert_eq; rewrite upto_length; lia).
  simpl. rewrite list_insert_insert_eq.
  fold (VarianceValue M (FFTSubbandsSize bd) j v0).
  rewrite at_nat, list_lookup_insert_eq by (rewrite upto_length; lia). simpl.
  rewrite store_nat by (rewrite upto_length; lia). simpl.
  unfold SubbandLoopState, with_FFTBeatValues, with_FFTVariance. simpl.
  f_equal. f_equal.
  - exact (upto_step j gvar _ v0 Hv0).
  - rewrite <- (upto_step j _ _ c0 Hc0). simpl. by rewrite Hv0.
Qed.

Lemma AverageStep_closed bd (j : nat) :
  wf bd -> 0 <= EnergyHistorySize bd -> Z.of_nat j < FFTSubbandsSize bd ->
  AverageStep (Z.of_nat j) (AverageLoopState bd j) = Some (AverageLoopState bd (S j)).
Proof.
  intros Hwf HH Hj. destruct Hwf as [? Hsub Havg Hvar Hbeat Hhist Hrows].
  destruct (lookup_lt_is_Some_2 (FFTAverageEnergy bd) j) as [a0 Ha0]; [lia|].
  destruct (lookup_lt_is_Some_2 (EnergyHistory bd) j) as [row Hrow]; [lia|].
  assert (EnergyHistorySize bd = Z.of_nat (length row)) as Hlen.
  { rewrite (Forall_lookup_1 _ _ _ _ Hrows Hrow). lia. }
  unfold AverageStep. simpl.
  rewrite store_nat by (rewrite upto_length; lia). simpl.
  rewrite (for_loop_accumulate
             (fun a => with_FFTAverageEnergy a (AverageLoopState bd j))
             fadd j row _ _ _ (f_of_int 0) Hlen).
  2: { apply list_lookup_insert_eq. rewrite upto_length. lia. }
  2: { intros k a x Hx _. simpl. rewrite at_nat, Hrow. simpl.
       by rewrite at_nat, Hx. }
  simpl. rewrite list_insert_insert_eq.
  erewrite modify_nat
    by (apply list_lookup_insert_eq; rewrite upto_length; lia).
  simpl. rewrite list_insert_insert_eq.
  fold (AverageValue (EnergyHistorySize bd) row).
  unfold AverageLoopState, with_FFTAverageEnergy. simpl. do 2 f_equal.
  rewrite <- (upto_step j _ _ a0 Ha0). simpl. by rewrite Hrow.
Qed.

Lemma HistoryStep_closed (e : nat -> float) bd (j : nat) :
  wf bd -> 0 <= HistoryPosition bd < EnergyHistorySize bd ->
  Z.of_nat j < FFTSubbandsSize bd ->
  FFTSubbands bd !! j = Some (e j) ->
  HistoryStep (Z.of_nat j) (HistoryLoopState e bd j) = Some (HistoryLoopState e bd (S j)).
Proof.
  intros Hwf Hpos Hj He. destruct Hwf as [? Hsub Havg Hvar Hbeat Hhist Hrows].
  destruct (lookup_lt_is_Some_2 (EnergyHistory bd) j) as [row Hrow]; [lia|].
  pose proof (Forall_lookup_1 _ _ _ _ Hrows Hrow) as Hlen. simpl in Hlen.
  unfold HistoryStep. simpl.
  rewrite !at_nat, He, upto_lookup_here, Hrow. simpl.
  rewrite <- (Z2Nat.id (HistoryPosition bd)) at 1 by lia.
  rewrite store_nat by lia. simpl.
  rewrite store_nat by (rewrite upto_length; lia). simpl.
  unfold HistoryLoopState, with_EnergyHistory. simpl. do 2 f_equal.
  by rewrite <- (upto_step j _ _ row Hrow).
Qed.

(** *** The whole call *)
Theorem UpdateFFT_ready M bd :
  ready bd -> UpdateFFT M bd = Some (UpdateFFT_result M bd).
Proof.
  intros (Hwf & [HS HH] & Hpos).
  pose proof Hwf as [? Hsub Havg Hvar Hbeat Hhist Hrows].
  unfold UpdateFFT.
  (* first loop *)
  rewrite (for_loop_closed (SubbandLoopState M bd)).
  2: { unfold SubbandLoopState. rewrite !upto_0. by destruct bd. }
  2: { intros j Hj. by apply SubbandStep_closed. }
  simpl.
  set (bd1 := SubbandLoopState M bd (Z.to_nat (FFTSubbandsSize bd))).
  assert (wf bd1) as Hwf1.
  { split; simpl; rewrite ?upto_length; done. }
  (* second loop *)
  rewrite (for_loop_closed (AverageLoopState bd1)).
  2: { unfold AverageLoopState. rewrite upto_0. by destruct bd1. }
  2: { intros j Hj. apply AverageStep_closed; simpl; (done || lia). }
  simpl.
  set (bd2 := AverageLoopState bd1 (Z.to_nat (FFTSubbandsSize bd))).
  assert (wf bd2) as Hwf2.
  { split; simpl; rewrite ?upto_length; done. }
  (* third loop *)
  rewrite (for_loop_closed (HistoryLoopState (SubbandValue M (FFTSubbandsSize bd)) bd2)).
  2: { unfold HistoryLoopState. rewrite upto_0. by destruct bd2. }
  2: { intros j Hj. apply HistoryStep_closed; simpl; try (done || lia).
       rewrite upto_lookup.
       destruct (lookup_lt_is_Some_2 (FFTSubbands bd) j) as [x ->]; [lia|]. simpl.
       destruct (decide (j < Z.to_nat (FFTSubbandsSize bd))%nat); [done|lia]. }
  simpl. destruct (decide (EnergyHistorySize bd = 0)); [lia|].
  unfold UpdateFFT_result, with_HistoryPosition. simpl.
  by rewrite !upto_all by lia.
Qed.
End UpdateCall.

(** ** Beat detection: what a call of [UpdateFFT] keeps *)

Section SizeFacts.
Context {FA : FloatArith}.
Implicit Types (bd : UBeatDetection) (M : list float).

Lemma for_loop_same_sizes (lo hi : Z) body bd0 bd bd' :
  (forall i s s', body i s = Some s' -> same_sizes bd0 s -> same_sizes bd0 s') ->
  same_sizes bd0 bd -> for_loop lo hi body bd = Some bd' -> same_sizes bd0 bd'.
Proof. intros Hstep Hbd Hrun. by eapply for_count_preserves. Qed.

Lemma SubbandStep_same_sizes M (i : Z) bd0 bd bd' :
  SubbandStep M i bd = Some bd' -> same_sizes bd0 bd -> same_sizes bd0 bd'.
Proof.
  unfold SubbandStep. intros H Hbd.
  apply bind_Some in H as (a1 & _ & H).
  apply bind_Some in H as (bd1 & Hl1 & H).
  apply bind_Some in H as (a2 & _ & H).
  apply bind_Some in H as (bd2 & Hl2 & H).
  apply bind_Some in H as (a3 & _ & H).
  apply bind_Some in H as (v & _ & H).
  apply bind_Some in H as (a4 & _ & H).
  injection H as <-.
  assert (same_sizes bd0 bd1) as H1.
  { refine (for_loop_same_sizes _ _ _ bd0 _ _ _ _ Hl1); [|exact Hbd].
    intros k s s' Hs Hss.
    apply bind_Some in Hs as (x & _ & Hs).
    apply bind_Some in Hs as (a & _ & Hs). by injection Hs as <-. }
  assert (same_sizes bd0 bd2) as H2.
  { refine (for_loop_same_sizes _ _ _ bd0 _ _ _ _ Hl2); [|exact H1].
    intros k s s' Hs Hss.
    apply bind_Some in Hs as (x & _ & Hs).
    apply bind_Some in Hs as (m & _ & Hs).
    apply bind_Some in Hs as (a & _ & Hs). by injection Hs as <-. }
  exact H2.
Qed.

Lemma AverageStep_same_sizes (i : Z) bd0 bd bd' :
  AverageStep i bd = Some bd' -> same_sizes bd0 bd -> same_sizes bd0 bd'.
Proof.
  unfold AverageStep. intros H Hbd.
  apply bind_Some in H as (a1 & _ & H).
  apply bind_Some in H as (bd1 & Hl1 & H).
  apply bind_Some in H as (a2 & _ & H).
  injection H as <-.
  assert (same_sizes bd0 bd1) as H1; [|exact H1].
  refine (for_loop_same_sizes _ _ _ bd0 _ _ _ _ Hl1); [|exact Hbd].
  intros k s s' Hs Hss.
  apply bind_Some in Hs as (row & _ & Hs).
  apply bind_Some in Hs as (x & _ & Hs).
  apply bind_Some in Hs as (a & _ & Hs). by injection Hs as <-.
Qed.

Lemma HistoryStep_same_sizes (i : Z) bd0 bd bd' :
  HistoryStep i bd = Some bd' -> same_sizes bd0 bd -> same_sizes bd0 bd'.
Proof.
  unfold HistoryStep. intros H Hbd.
  apply bind_Some in H as (x & _ & H).
  apply bind_Some in H as (row & _ & H).
  apply bind_Some in H as (row' & _ & H).
  apply bind_Some in H as (eh & _ & H).
  by injection H as <-.
Qed.

(** whatever the state, a call of [UpdateFFT] that returns has not touched
    the two sizes *)
Lemma UpdateFFT_same_sizes M bd bd' :
  UpdateFFT M bd = Some bd' -> same_sizes bd bd'.
Proof.
  unfold UpdateFFT. intros H.
  apply bind_Some in H as (bd1 & Hl1 & H).
  apply bind_Some in H as (bd2 & Hl2 & H).
  apply bind_Some in H as (bd3 & Hl3 & H).
  destruct (decide (EnergyHistorySize bd3 = 0)); [discriminate|].
  injection H as <-.
  assert (same_sizes bd bd1) as H1.
  { refine (for_loop_same_sizes _ _ _ bd _ _ _ _ Hl1); [|exact (conj eq_refl eq_refl)].
    intros ???. apply SubbandStep_same_sizes. }
  assert (same_sizes bd bd2) as H2.
  { refine (for_loop_same_sizes _ _ _ bd _ _ _ _ Hl2); [|exact H1].
    intros ???. apply AverageStep_same_sizes. }
  assert (same_sizes bd bd3) as H3; [|exact H3].
  refine (for_loop_same_sizes _ _ _ bd _ _ _ _ Hl3); [|exact H2].
  intros ???. apply HistoryStep_same_sizes.
Qed.

(** [UpdateFFT] leaves a detector on which it can run again *)
Lemma UpdateFFT_result_ready M bd : ready bd -> ready (UpdateFFT_result M bd).
Proof.
  intros (Hwf & [HS HH] & Hpos). destruct Hwf as [? Hsub Havg Hvar Hbeat Hhist Hrows].
  split; [|split].
  - split; simpl; rewrite ?length_imap; try done.
    apply Forall_lookup_2. intros s row. rewrite list_lookup_imap.
    destruct (EnergyHistory bd !! s) as [row0|] eqn:Hrow; simpl; [|done].
    intros [= <-]. rewrite length_insert.
    exact (Forall_lookup_1 _ _ _ _ Hrows Hrow).
  - done.
  - simpl. pose proof (Z.rem_bound_pos (HistoryPosition bd + 1) (EnergyHistorySize bd)).
    lia.
Qed.
End SizeFacts.

(** ** The state invariant and the resizes (C3, C4) *)

(** C3, as the code has it: [CreateBeatDetection] with a positive sub-band
    count and a positive history depth establishes [S > 0] and [H > 0]; both
    resizes and [UpdateFFT] preserve it; a resize that receives a
    non-positive size returns the detector as it was. *)
Theorem positive_sizes_invariant {FA : FloatArith} (n h k : Z) (M : list float)
    (bd : UBeatDetection) :
  0 < n -> 0 < h -> wf bd -> positive_sizes bd ->
  (exists bd', CreateBeatDetection n h = Some bd' /\ wf bd' /\ positive_sizes bd' /\
               FFTSubbandsSize bd' = n /\ EnergyHistorySize bd' = h) /\
  (exists bd', UpdateFFTSubbandsSize k bd = Some bd' /\ wf bd' /\ positive_sizes bd' /\
               (k <= 0 -> bd' = bd)) /\
  (exists bd', UpdateEnergyHistorySize k bd = Some bd' /\ wf bd' /\ positive_sizes bd' /\
               (k <= 0 -> bd' = bd)) /\
  (forall bd', UpdateFFT M bd = Some bd' -> positive_sizes bd') /\
  (0 <= HistoryPosition bd < EnergyHistorySize bd ->
   exists bd', UpdateFFT M bd = Some bd' /\ wf bd' /\ positive_sizes bd').
Proof.
  intros Hn Hh Hwf [HS HH]. split; [|split; [|split; [|split]]].
  - destruct (CreateBeatDetection_wf n h) as (bd' & Hc & Hwf' & _ & HH' & HS').
    destruct (decide (n <= 0)); [lia|].
    exists bd'. unfold positive_sizes. rewrite HH', HS'.
    split; [done|]. split; [done|]. split; [lia|done].
  - destruct (UpdateFFTSubbandsSize_wf k bd Hwf) as (bd' & Hr & Hwf' & HH' & _ & HS').
    exists bd'. unfold positive_sizes. rewrite HH', HS'.
    split; [done|]. split; [done|]. split.
    + destruct (decide (k <= 0)); lia.
    + intros Hk. rewrite UpdateFFTSubbandsSize_rejects in Hr by done. congruence.
  - destruct (UpdateEnergyHistorySize_wf k bd Hwf) as (bd' & Hr & Hwf' & HS' & _ & HH').
    exists bd'. unfold positive_sizes. rewrite HH', HS'.
    split; [done|]. split; [done|]. split.
    + destruct (decide (k <= 0)); lia.
    + intros Hk. rewrite UpdateEnergyHistorySize_rejects in Hr by done. congruence.
  - intros bd' [HS' HH']%UpdateFFT_same_sizes. unfold positive_sizes. lia.
  - intros Hpos. exists (UpdateFFT_result M bd).
    assert (ready bd) as Hready by done.
    split; [by apply UpdateFFT_ready|].
    by destruct (UpdateFFT_result_ready M bd Hready) as (? & ? & _).
Qed.

Lemma positive_sizes_invariant_witness :
  let bd := mkBeatDetection (FA:=binary32) 0 1 1 [f32 0] [f32 0] [f32 0] [f32 0] [[f32 0]] in
  (exists bd', CreateBeatDetection (FA:=binary32) 4 2 = Some bd' /\ wf bd' /\
               positive_sizes bd' /\ FFTSubbandsSize bd' = 4 /\ EnergyHistorySize bd' = 2) /\
  (exists bd', UpdateFFTSubbandsSize 0 bd = Some bd' /\ wf bd' /\ positive_sizes bd' /\
               (0 <= 0 -> bd' = bd)) /\
  (exists bd', UpdateEnergyHistorySize 0 bd = Some bd' /\ wf bd' /\ positive_sizes bd' /\
               (0 <= 0 -> bd' = bd)) /\
  (forall bd', UpdateFFT (FA:=binary32) [f32 3] bd = Some bd' -> positive_sizes bd') /\
  (0 <= HistoryPosition bd < EnergyHistorySize bd ->
   exists bd', UpdateFFT (FA:=binary32) [f32 3] bd = Some bd' /\ wf bd' /\
               positive_sizes bd').
Proof.
  apply (positive_sizes_invariant (FA:=binary32) 4 2 0 [f32 3]).
  - lia.
  - lia.
  - split; simpl; try reflexivity; try lia. by repeat constructor.
  - split; simpl; lia.
Defined.

(** C3, as stated, fails: created with a sub-band count of 0 the detector
    stores the size 0. *)
Lemma Create_without_subbands :
  FFTSubbandsSize <$> CreateBeatDetection (FA:=binary32) 0 5 = Some 0 /\
  EnergyHistorySize <$> CreateBeatDetection (FA:=binary32) 0 5 = Some 5 /\
  and_then (CreateBeatDetection (FA:=binary32) 0 5)
           (fun bd => Some (bool_decide (positive_sizes bd))) = Some false.
Proof. vm_compute. repeat split; reflexivity. Qed.

Section HistoryAfterResize.
Context {FA : FloatArith}.
Implicit Types (bd : UBeatDetection).

(** a row after [SetNum]: old cells kept, new cells zero *)
Lemma SetNum_row_lookup (h : Z) (row : list float) (k : nat) :
  Z.of_nat k < h ->
  SetNum (f_of_int 0) h row !! k = Some (default (f_of_int 0) (row !! k)).
Proof. intros Hk. apply SetNum_lookup. lia. Qed.

Lemma HistoryCell_resized_rows (h : Z) (eh : list (list float)) bd bd' (s k : nat) :
  EnergyHistory bd' = SetNum (f_of_int 0) h <$> eh ->
  Z.of_nat k < h -> (s < length eh)%nat ->
  HistoryCell bd' s k = Some (default (f_of_int 0) (eh !! s ≫= (.!! k))).
Proof.
  intros Heh Hk Hs. unfold HistoryCell. rewrite Heh, list_lookup_fmap.
  destruct (lookup_lt_is_Some_2 eh s Hs) as [row ->]. simpl.
  by apply SetNum_row_lookup.
Qed.

(** neither resize moves the cursor *)
Lemma resize_keeps_cursor (n : Z) bd bd' :
  wf bd ->
  UpdateFFTSubbandsSize n bd = Some bd' \/ UpdateEnergyHistorySize n bd = Some bd' ->
  HistoryPosition bd' = HistoryPosition bd.
Proof.
  intros Hwf [Hr|Hr].
  - destruct (UpdateFFTSubbandsSize_wf n bd Hwf) as (bd1 & Hr1 & _ & _ & Hpos & _).
    congruence.
  - destruct (UpdateEnergyHistorySize_wf n bd Hwf) as (bd1 & Hr1 & _ & _ & Hpos & _).
    congruence.
Qed.
End HistoryAfterResize.

(** C4, as the code has it: an accepted resize of either dimension leaves
    [S] history buffers of [H] entries each, in which every entry that
    existed before keeps its value and every new entry is zero. *)
Theorem resize_keeps_history {FA : FloatArith} (n : Z) (bd : UBeatDetection) :
  wf bd -> positive_sizes bd -> 0 < n ->
  (exists bd', UpdateFFTSubbandsSize n bd = Some bd' /\ wf bd' /\
     FFTSubbandsSize bd' = n /\ EnergyHistorySize bd' = EnergyHistorySize bd /\
     forall s k : nat, Z.of_nat s < n -> Z.of_nat k < EnergyHistorySize bd ->
       HistoryCell bd' s k = Some (default (f_of_int 0) (HistoryCell bd s k))) /\
  (exists bd', UpdateEnergyHistorySize n bd = Some bd' /\ wf bd' /\
     FFTSubbandsSize bd' = FFTSubbandsSize bd /\ EnergyHistorySize bd' = n /\
     forall s k : nat, Z.of_nat s < FFTSubbandsSize bd -> Z.of_nat k < n ->
       HistoryCell bd' s k = Some (default (f_of_int 0) (HistoryCell bd s k))).
Proof.
  intros Hwf [HS HH] Hn. split.
  - destruct (UpdateFFTSubbandsSize_wf n bd Hwf) as (bd' & Hr & Hwf' & HH' & _ & HS').
    destruct (decide (n <= 0)); [lia|].
    exists bd'. do 4 (split; [done|]). intros s k Hs Hk.
    rewrite UpdateFFTSubbandsSize_accepts, UpdateEnergyHistorySize_accepts in Hr
      by (simpl; try apply SetNum_length; lia).
    injection Hr as <-.
    rewrite (HistoryCell_resized_rows (EnergyHistorySize bd)
               (SetNum [] n (EnergyHistory bd)) bd)
      by (simpl; rewrite ?SetNum_length; (done || lia)).
    rewrite SetNum_lookup by lia. simpl. unfold HistoryCell.
    by destruct (EnergyHistory bd !! s).
  - destruct (UpdateEnergyHistorySize_wf n bd Hwf) as (bd' & Hr & Hwf' & HS' & _ & HH').
    destruct (decide (n <= 0)); [lia|].
    exists bd'. do 4 (split; [done|]). intros s k Hs Hk.
    rewrite UpdateEnergyHistorySize_accepts in Hr by (lia || apply Hwf).
    injection Hr as <-.
    rewrite (HistoryCell_resized_rows n (EnergyHistory bd) bd); [done|done|done|].
    destruct Hwf. lia.
Qed.

Lemma resize_keeps_history_witness :
  let bd := mkBeatDetection (FA:=binary32) 1 1 2 [f32 7] [f32 0] [f32 0] [f32 1]
                            [[f32 7; f32 0]] in
  (exists bd', UpdateFFTSubbandsSize 3 bd = Some bd' /\ wf bd' /\
     FFTSubbandsSize bd' = 3 /\ EnergyHistorySize bd' = EnergyHistorySize bd /\
     forall s k : nat, Z.of_nat s < 3 -> Z.of_nat k < EnergyHistorySize bd ->
       HistoryCell bd' s k = Some (default (f_of_int 0) (HistoryCell bd s k))) /\
  (exists bd', UpdateEnergyHistorySize 3 bd = Some bd' /\ wf bd' /\
     FFTSubbandsSize bd' = FFTSubbandsSize bd /\ EnergyHistorySize bd' = 3 /\
     forall s k : nat, Z.of_nat s < FFTSubbandsSize bd -> Z.of_nat k < 3 ->
       HistoryCell bd' s k = Some (default (f_of_int 0) (HistoryCell bd s k))).
Proof.
  apply (resize_keeps_history (FA:=binary32) 3).
  - split; simpl; try reflexivity; try lia. by repeat constructor.
  - split; simpl; lia.
  - lia.
Defined.

(** C4, as stated, fails: after one update, growing the history from 2 to
    3 entries keeps the energy written by the update in the buffer. *)
Lemma resize_leaves_old_energy :
  let updated := FeedFresh 1 2 1 [f32 7] in
  let resized := and_then updated (UpdateEnergyHistorySize 3) in
  FFTSubbandsSize <$> updated = Some 1 /\
  EnergyHistorySize <$> updated = Some 2 /\
  EnergyHistory <$> updated = Some [[f32 7; f32 0]] /\
  EnergyHistorySize <$> resized = Some 3 /\
  EnergyHistory <$> resized = Some [[f32 7; f32 0; f32 0]] /\
  and_then resized (fun bd => HistoryCell bd 0 0) = Some (f32 7) /\
  f32 7 <> f32 0.
Proof. vm_compute. repeat split; try reflexivity. discriminate. Qed.

(** ** Beat queries (C9, C10) *)

Section BeatQueries.
Context {FA : FloatArith}.
Implicit Types (bd : UBeatDetection).

(** on a sub-band of the detector [IsBeat] is the comparison of the
    design document *)
Lemma IsBeat_in_range bd (b : Z) :
  wf bd -> 0 <= b < FFTSubbandsSize bd ->
  exists e avg c,
    at_ (FFTSubbands bd) b = Some e /\ at_ (FFTAverageEnergy bd) b = Some avg /\
    at_ (FFTBeatValues bd) b = Some c /\
    IsBeat b bd = Some (fgt e (fmul avg c)).
Proof.
  intros Hwf Hb. destruct Hwf as [? Hsub Havg Hvar Hbeat Hhist Hrows].
  destruct (proj2 (at_is_Some (FFTSubbands bd) b)) as [e He]; [lia|].
  destruct (proj2 (at_is_Some (FFTAverageEnergy bd) b)) as [avg Ha]; [lia|].
  destruct (proj2 (at_is_Some (FFTBeatValues bd) b)) as [c Hc]; [lia|].
  exists e, avg, c. do 3 (split; [done|]).
  unfold IsBeat. destruct (decide (b >= FFTSubbandsSize bd)); [lia|].
  by rewrite He, Ha, Hc.
Qed.

Lemma IsBeat_above bd (b : Z) : FFTSubbandsSize bd <= b -> IsBeat b bd = Some false.
Proof. intros Hb. unfold IsBeat. destruct (decide (b >= FFTSubbandsSize bd)); [done|lia]. Qed.

(** below 0 the guard lets the index through and the first read is out of
    range *)
Lemma IsBeat_below bd (b : Z) : 0 <= FFTSubbandsSize bd -> b < 0 -> IsBeat b bd = None.
Proof.
  intros HS Hb. unfold IsBeat. destruct (decide (b >= FFTSubbandsSize bd)); [lia|].
  by rewrite (at_negative (FFTSubbands bd)) by lia.
Qed.

(** [IsBeat] has a result exactly from index 0 on *)
Lemma IsBeat_is_Some bd (b : Z) : wf bd -> is_Some (IsBeat b bd) <-> 0 <= b.
Proof.
  intros Hwf. split.
  - intros [r Hr]. destruct (decide (0 <= b)) as [|Hneg]; [done|].
    rewrite IsBeat_below in Hr by (lia || apply Hwf). discriminate.
  - intros Hb. destruct (decide (b < FFTSubbandsSize bd)).
    + destruct (IsBeat_in_range bd b Hwf) as (e & avg & c & _ & _ & _ & ->); [lia|eauto].
    + rewrite IsBeat_above by lia. eauto.
Qed.

(** the counting loop of [IsBeatRange] *)
Lemma count_loop bd (Low High : Z) :
  wf bd -> 0 <= Low <= High -> High < FFTSubbandsSize bd ->
  for_loop Low (High + 1)
    (fun Index NumOfBeats =>
       b ← IsBeat Index bd; Some (if b : bool then NumOfBeats + 1 else NumOfBeats)) 0
  = Some (CountBeats Low High bd).
Proof.
  intros Hwf HLow HHigh. unfold for_loop, CountBeats.
  set (P := fun s => IsBeat s bd = Some true).
  destruct (for_count_inv
              (fun i n => n = Z.of_nat (length (filter P (seqZ Low (i - Low)))))
              (Z.to_nat (High + 1 - Low)) Low
              (fun Index NumOfBeats =>
                 b ← IsBeat Index bd;
                 Some (if b : bool then NumOfBeats + 1 else NumOfBeats)) 0)
    as (r & Hr & Hend).
  - by rewrite Z.sub_diag.
  - intros i n Hi ->.
    destruct (IsBeat_in_range bd i Hwf) as (e & avg & c & _ & _ & _ & Hb); [lia|].
    rewrite Hb. simpl. eexists. split; [done|].
    replace (i + 1 - Low) with (Z.of_nat (S (Z.to_nat (i - Low)))) by lia.
    rewrite seqZ_S, filter_app, length_app.
    replace (Z.of_nat (Z.to_nat (i - Low))) with (i - Low) by lia.
    replace (Low + (i - Low)) with i by lia.
    destruct (fgt e (fmul avg c)) eqn:Hgt.
    + rewrite filter_cons_True by exact Hb. rewrite filter_nil. simpl.
      by rewrite Nat2Z.inj_add.
    + rewrite filter_cons_False by (unfold P; rewrite Hb; discriminate).
      rewrite filter_nil. simpl. by rewrite Nat.add_0_r.
  - rewrite Hr, Hend.
    by replace (Low + Z.of_nat (Z.to_nat (High + 1 - Low)) - Low)
      with (High + 1 - Low) by lia.
Qed.

(** [IsBeatRange], on any detector that satisfies the class invariant *)
Lemma IsBeatRange_spec bd (Low High Threshold : Z) :
  wf bd ->
  IsBeatRange Low High Threshold bd =
    Some (if bool_decide (0 <= Low < FFTSubbandsSize bd /\
                          0 <= High < FFTSubbandsSize bd /\ Low < High)
          then bool_decide (Threshold < CountBeats Low High bd)
          else false).
Proof.
  intros Hwf. unfold IsBeatRange.
  destruct (decide (Low >= 0 /\ Low < FFTSubbandsSize bd)) as [HL|HL].
  2: { rewrite (bool_decide_eq_false_2 _ HL). simpl.
       rewrite bool_decide_eq_false_2; [done|lia]. }
  rewrite (bool_decide_eq_true_2 _ HL). simpl.
  destruct (decide (High >= 0 /\ High < FFTSubbandsSize bd)) as [HH|HH].
  2: { rewrite (bool_decide_eq_false_2 _ HH). simpl.
       rewrite bool_decide_eq_false_2; [done|lia]. }
  rewrite (bool_decide_eq_true_2 _ HH). simpl.
  destruct (decide (High > Low)) as [HLH|HLH].
  2: { rewrite (bool_decide_eq_false_2 _ HLH). simpl.
       rewrite bool_decide_eq_false_2; [done|lia]. }
  rewrite (bool_decide_eq_true_2 _ HLH). simpl.
  rewrite count_loop by (done || lia). simpl.
  rewrite (bool_decide_eq_true_2 (0 <= Low < _ /\ _)) by lia.
  f_equal. apply bool_decide_ext. lia.
Qed.

(** with a range that is no range the threshold does not matter *)
Lemma IsBeatRange_no_range bd (Low High T T' : Z) :
  wf bd -> High <= Low ->
  IsBeatRange Low High T bd = IsBeatRange Low High T' bd.
Proof.
  intros Hwf Hle. rewrite !IsBeatRange_spec by done.
  by rewrite bool_decide_eq_false_2 by lia.
Qed.
End BeatQueries.

(** C9: [IsBeatRange(low, high, threshold)] is [false] when [low] or [high]
    is outside [0, S) or [high <= low], and otherwise tells whether more than
    [threshold] sub-bands of [low..high] (both included) are beats;
    [IsSnare] is [IsBeatRange(1, S/3, (S/3 - 1)/3)] and [IsHiHat] is
    [IsBeatRange(S/2, S-1, (S-1 - S/2)/3)], the divisions being those of
    integers (truncating as in C++, or rounding down: the answers agree). *)
Theorem IsBeatRange_counts {FA : FloatArith} (bd : UBeatDetection)
    (Low High Threshold : Z) :
  wf bd ->
  let S := FFTSubbandsSize bd in
  IsBeatRange Low High Threshold bd =
    Some (if bool_decide (0 <= Low < S /\ 0 <= High < S /\ Low < High)
          then bool_decide (Threshold < CountBeats Low High bd)
          else false) /\
  IsSnare bd = IsBeatRange 1 (S `quot` 3) ((S `quot` 3 - 1) `quot` 3) bd /\
  IsHiHat bd = IsBeatRange (S `quot` 2) (S - 1) ((S - 1 - S `quot` 2) `quot` 3) bd /\
  IsSnare bd = IsBeatRange 1 (S `div` 3) ((S `div` 3 - 1) `div` 3) bd /\
  IsHiHat bd = IsBeatRange (S `div` 2) (S - 1) ((S - 1 - S `div` 2) `div` 3) bd.
Proof.
  intros Hwf S. pose proof (wf_size bd Hwf) as HS. fold S in HS.
  split; [by apply IsBeatRange_spec|]. split; [done|]. split; [done|].
  unfold IsSnare, IsHiHat. fold S. rewrite !(Z.quot_div_nonneg S) by lia. split.
  - destruct (decide (1 <= S `div` 3)) as [Hge|Hlt].
    + by rewrite Z.quot_div_nonneg by lia.
    + apply IsBeatRange_no_range; [done|lia].
  - destruct (decide (S `div` 2 < S - 1)) as [Hge|Hlt].
    + by rewrite Z.quot_div_nonneg by lia.
    + apply IsBeatRange_no_range; [done|lia].
Qed.

Lemma IsBeatRange_counts_witness :
  let bd := mkBeatDetection (FA:=binary32) 0 3 1
              [f32 5; f32 1; f32 5] [f32 2; f32 2; f32 2] [f32 0; f32 0; f32 0]
              [f32 1; f32 1; f32 1] [[f32 5]; [f32 1]; [f32 5]] in
  let S := FFTSubbandsSize bd in
  IsBeatRange 0 2 1 bd =
    Some (if bool_decide (0 <= 0 < S /\ 0 <= 2 < S /\ 0 < 2)
          then bool_decide (1 < CountBeats 0 2 bd)
          else false) /\
  IsSnare bd = IsBeatRange 1 (S `quot` 3) ((S `quot` 3 - 1) `quot` 3) bd /\
  IsHiHat bd = IsBeatRange (S `quot` 2) (S - 1) ((S - 1 - S `quot` 2) `quot` 3) bd /\
  IsSnare bd = IsBeatRange 1 (S `div` 3) ((S `div` 3 - 1) `div` 3) bd /\
  IsHiHat bd = IsBeatRange (S `div` 2) (S - 1) ((S - 1 - S `div` 2) `div` 3) bd.
Proof.
  intros bd. apply (IsBeatRange_counts (FA:=binary32) bd 0 2 1).
  split; simpl; try reflexivity; try lia. by repeat constructor.
Defined.

(** C10 at the index [-1]: the guard [SubBand >= FFTSubbandsSize] lets it
    through, and the read of [FFTSubbands[-1]] is outside the array. *)
Theorem IsBeat_negative_index :
  let created := CreateBeatDetection (FA:=binary32) 4 2 in
  FFTSubbandsSize <$> created = Some 4 /\
  and_then created (fun bd => at_ (FFTSubbands bd) (-1)) = None /\
  and_then created (fun bd => at_ (FFTSubbands bd) 0) = Some (f32 0) /\
  and_then created (IsBeat (-1)) = None /\
  and_then created (IsBeat 4) = Some false.
Proof. vm_compute. repeat split; reflexivity. Qed.

(** ** One call of [UpdateFFT] on concrete spectra (C1, C2) *)

(** C1 at the spectrum [0, 2] with one sub-band: its bins have mean 1 and
    variance 1.  The first call leaves [FFTVariance[0] = 1]; the second
    call, with the same spectrum, starts from that value and leaves
    [(1 + 1 + 1) * 1/2 = 1.5]. *)
Theorem variance_carries_over :
  let M := [f32 0; f32 2] in
  let first := FeedFresh 1 1 1 M in
  let second := FeedFresh 1 1 2 M in
  variance_around (FA:=binary32) (f32 1) (SubbandBins (FA:=binary32) M 1 0) = f32 1 /\
  FFTSubbands (FA:=binary32) <$> first = Some [f32 1] /\
  FFTVariance (FA:=binary32) <$> first = Some [f32 1] /\
  FFTSubbands (FA:=binary32) <$> second = Some [f32 1] /\
  FFTVariance (FA:=binary32) <$> second = Some [B32.div (f32 3) (f32 2)] /\
  B32.gt (B32.div (f32 3) (f32 2)) (f32 1) = true.
Proof. vm_compute. repeat split; reflexivity. Qed.

(** C2 at a spectrum of five bins equal to 1 with two sub-bands: each
    sub-band has [5 / 2 = 2] bins of sum 2 and mean 1, and the code
    multiplies the sum by [2 / 5]. *)
Theorem subband_value_is_scaled_sum :
  let M := [f32 1; f32 1; f32 1; f32 1; f32 1] in
  let scaled := B32.mul (f32 2) (B32.div (f32 2) (f32 5)) in
  SubbandBins (FA:=binary32) M 2 0 = [f32 1; f32 1] /\
  SubbandBins (FA:=binary32) M 2 1 = [f32 1; f32 1] /\
  mean (FA:=binary32) [f32 1; f32 1] = f32 1 /\
  FFTSubbands (FA:=binary32) <$> FeedFresh 2 1 1 M = Some [scaled; scaled] /\
  B32.gt (f32 1) scaled = true.
Proof. vm_compute. repeat split; reflexivity. Qed.


(** ** Reading a frame range (C5) *)

Section FrameRange.
Context {FA : FloatArith}.

(** On a valid range the call succeeds; the frame it returns starts at the
    sample [StartFrame * NumChannels] and has [EndFrame - StartFrame]
    samples. *)
Lemma GetAudioFrame_valid_range (w : UImportedSoundWave) (StartFrame EndFrame : Z)
    (AudioFrame : list float) :
  consistent_wave w ->
  0 <= StartFrame < EndFrame -> EndFrame <= PCMNumOfFrames w ->
  let Frame := take (Z.to_nat (EndFrame - StartFrame))
                    (drop (Z.to_nat (StartFrame * NumChannels w)) (PCMData w)) in
  GetAudioFrameFromSoundWaveByFramesCustom w StartFrame EndFrame AudioFrame
    = Some (true, Frame) /\
  Z.of_nat (length Frame) = EndFrame - StartFrame.
Proof.
  intros (Hch & Hfr & Hlen & Hmax) Hrange Hend Frame.
  assert (StartFrame * NumChannels w + (EndFrame - StartFrame)
          <= Z.of_nat (length (PCMData w))) as Hfit by nia.
  assert (0 <= StartFrame * NumChannels w) as Hoff by nia.
  assert (EndFrame <= Z.of_nat (length (PCMData w))) as Hin by nia.
  split.
  - unfold GetAudioFrameFromSoundWaveByFramesCustom, to_uint32, in_int32.
    rewrite !Z.mod_small by lia.
    rewrite (bool_decide_eq_true_2 (StartFrame >= 0 /\ _)) by lia. simpl.
    rewrite (bool_decide_eq_true_2 (EndFrame > 0 /\ _)) by lia. simpl.
    rewrite (bool_decide_eq_false_2 (EndFrame > _)) by lia.
    rewrite (bool_decide_eq_true_2 (- 2 ^ 31 <= _ < _)) by lia. simpl.
    rewrite (bool_decide_eq_false_2 (_ = 0 /\ _)) by lia.
    rewrite (bool_decide_eq_false_2 (_ <= 0)) by lia.
    rewrite (bool_decide_eq_false_2 (_ > _)) by lia.
    by rewrite (bool_decide_eq_true_2 (0 <= _ /\ _)) by lia.
  - unfold Frame. rewrite length_take, length_drop. lia.
Qed.
End FrameRange.

(** C5 on a stereo wave of 4 frames, read from frame 1 to frame 3: the
    frame returned starts at sample [1 * 2] as the claim says, and holds
    [3 - 1 = 2] samples, not [(3 - 1) * 2 = 4]. *)
Theorem stereo_frame_range_is_short :
  let w := mkSoundWave (FA:=binary32)
             [f32 10; f32 11; f32 20; f32 21; f32 30; f32 31; f32 40; f32 41] 4 2 in
  consistent_wave w /\
  GetAudioFrameFromSoundWaveByFramesCustom w 1 3 [] = Some (true, [f32 20; f32 21]) /\
  take (Z.to_nat ((3 - 1) * NumChannels w)) (drop (Z.to_nat (1 * NumChannels w)) (PCMData w))
    = [f32 20; f32 21; f32 30; f32 31].
Proof.
  split; [|split; vm_compute; reflexivity].
  unfold consistent_wave. simpl. lia.
Qed.

(** ** Feeding the same spectrum again and again (C6) *)

Section SteadyState.
Context {FA : FloatArith}.
Implicit Types (bd : UBeatDetection) (M : list float).








End SteadyState.










(** the scenario of the design document on a flat spectrum, run in
    binary32: after the third call no sub-band reports a beat *)
Lemma flat_spectrum_goes_silent :
  silent_everywhere (FeedFresh 4 2 3 [f32 1; f32 1; f32 1; f32 1; f32 1; f32 1; f32 1; f32 1]) = true /\
  silent_everywhere (FeedFresh 4 2 4 [f32 1; f32 1; f32 1; f32 1; f32 1; f32 1; f32 1; f32 1]) = true.
Proof. split; vm_compute; reflexivity. Qed.


(** * Further properties of the code *)


(** ** More on the beat detector *)

Section DetectorCells.
Context {FA : FloatArith}.
Implicit Types (bd : UBeatDetection) (M : list float).

Lemma CreateBeatDetection_fresh (S H : Z) :
  0 < S -> 0 < H -> CreateBeatDetection S H = Some (FreshDetector S H).
Proof.
  intros HS HH. unfold CreateBeatDetection.
  rewrite UpdateFFTSubbandsSize_accepts by done.
  rewrite UpdateEnergyHistorySize_accepts by (simpl; rewrite ?SetNum_length; (done || lia)).
  unfold FreshDetector, with_EnergyHistory, with_EnergyHistorySize, SetNum. simpl.
  by rewrite !resize_nil, fmap_replicate, resize_nil.
Qed.

Lemma FreshDetector_ready (S H : Z) : 0 < S -> 0 < H -> ready (FreshDetector S H).
Proof.
  intros HS HH. split; [|split; [split; simpl; lia | simpl; lia]].
  split; simpl; rewrite ?length_replicate; try done; try lia.
  apply Forall_replicate. by rewrite length_replicate.
Qed.

(** the cells of the state after one call, sub-band by sub-band *)
Lemma UpdateFFT_result_cells M bd (s : nat) :
  wf bd -> Z.of_nat s < FFTSubbandsSize bd ->
  exists old row,
    FFTVariance bd !! s = Some old /\ EnergyHistory bd !! s = Some row /\
    FFTSubbands (UpdateFFT_result M bd) !! s
      = Some (SubbandValue M (FFTSubbandsSize bd) s) /\
    FFTVariance (UpdateFFT_result M bd) !! s
      = Some (VarianceValue M (FFTSubbandsSize bd) s old) /\
    FFTBeatValues (UpdateFFT_result M bd) !! s
      = Some (BeatValue (VarianceValue M (FFTSubbandsSize bd) s old)) /\
    FFTAverageEnergy (UpdateFFT_result M bd) !! s
      = Some (AverageValue (EnergyHistorySize bd) row) /\
    EnergyHistory (UpdateFFT_result M bd) !! s
      = Some (<[Z.to_nat (HistoryPosition bd) := SubbandValue M (FFTSubbandsSize bd) s]> row).
Proof.
  intros Hwf Hs. destruct Hwf as [? Hsub Havg Hvar Hbeat Hhist Hrows].
  destruct (lookup_lt_is_Some_2 (FFTSubbands bd) s) as [e0 He0]; [lia|].
  destruct (lookup_lt_is_Some_2 (FFTAverageEnergy bd) s) as [a0 Ha0]; [lia|].
  destruct (lookup_lt_is_Some_2 (FFTVariance bd) s) as [v0 Hv0]; [lia|].
  destruct (lookup_lt_is_Some_2 (FFTBeatValues bd) s) as [c0 Hc0]; [lia|].
  destruct (lookup_lt_is_Some_2 (EnergyHistory bd) s) as [row Hrow]; [lia|].
  exists v0, row. do 2 (split; [done|]). simpl.
  rewrite !list_lookup_imap, He0, Ha0, Hv0, Hc0, Hrow. simpl.
  done.
Qed.

(** with the cursor outside the history the third loop writes outside the
    row of sub-band 0 *)
Lemma UpdateFFT_cursor_outside M bd :
  wf bd -> positive_sizes bd ->
  ~ (0 <= HistoryPosition bd < EnergyHistorySize bd) ->
  UpdateFFT M bd = None.
Proof.
  intros Hwf [HS HH] Hpos.
  pose proof Hwf as [? Hsub Havg Hvar Hbeat Hhist Hrows].
  unfold UpdateFFT.
  rewrite (for_loop_closed (SubbandLoopState M bd)).
  2: { unfold SubbandLoopState. rewrite !upto_0. by destruct bd. }
  2: { intros j Hj. by apply SubbandStep_closed. }
  simpl.
  set (bd1 := SubbandLoopState M bd (Z.to_nat (FFTSubbandsSize bd))).
  assert (wf bd1) as Hwf1.
  { split; simpl; rewrite ?upto_length; done. }
  rewrite (for_loop_closed (AverageLoopState bd1)).
  2: { unfold AverageLoopState. rewrite upto_0. by destruct bd1. }
  2: { intros j Hj. apply AverageStep_closed; simpl; (done || lia). }
  simpl.
  set (bd2 := AverageLoopState bd1 (Z.to_nat (FFTSubbandsSize bd))).
  unfold for_loop.
  destruct (Z.to_nat (FFTSubbandsSize bd - 0)) as [|n] eqn:Hn; [lia|].
  simpl. unfold HistoryStep.
  destruct (lookup_lt_is_Some_2 (FFTSubbands bd2) 0) as [x Hx];
    [simpl; rewrite upto_length; lia|].
  destruct (lookup_lt_is_Some_2 (EnergyHistory bd) 0) as [row Hrow]; [lia|].
  pose proof (Forall_lookup_1 _ _ _ _ Hrows Hrow) as Hlen. simpl in Hlen.
  pose proof (at_nat (FFTSubbands bd2) 0) as E1.
  pose proof (at_nat (EnergyHistory bd) 0) as E2.
  change (Z.of_nat 0) with 0 in E1, E2.
  rewrite E1, Hx. simpl. rewrite E2. simpl. rewrite Hrow. simpl.
  assert (store row (HistoryPosition bd) x = None) as ->; [|done].
  unfold store. destruct (decide (0 <= HistoryPosition bd < Z.of_nat (length row)));
    [lia|done].
Qed.

(** [UpdateFFT] has a result exactly when the cursor is inside the history *)
Lemma UpdateFFT_defined M bd :
  wf bd -> positive_sizes bd ->
  is_Some (UpdateFFT M bd) <-> 0 <= HistoryPosition bd < EnergyHistorySize bd.
Proof.
  intros Hwf Hsz. split.
  - intros [bd' Hbd']. destruct (decide (0 <= HistoryPosition bd < EnergyHistorySize bd));
      [done|]. by rewrite UpdateFFT_cursor_outside in Hbd'.
  - intros Hpos. rewrite UpdateFFT_ready by done. eauto.
Qed.
End DetectorCells.

(** ** Creation and one update, cell by cell *)

(** [CreateBeatDetection] with positive sizes returns the detector whose
    four arrays hold [S] zeros and whose history holds [S] rows of [H]
    zeros, with the cursor at 0; [UpdateFFT] can run on it. *)
Theorem Create_gives_zero_detector {FA : FloatArith} (S H : Z) :
  0 < S -> 0 < H ->
  CreateBeatDetection S H = Some (FreshDetector S H) /\ ready (FreshDetector S H).
Proof.
  intros HS HH. split; [by apply CreateBeatDetection_fresh | by apply FreshDetector_ready].
Qed.

Lemma Create_gives_zero_detector_witness :
  CreateBeatDetection (FA:=binary32) 2 3 = Some (FreshDetector 2 3) /\
  ready (FreshDetector (FA:=binary32) 2 3).
Proof. apply (Create_gives_zero_detector (FA:=binary32) 2 3); lia. Defined.

(** One call of [ProcessMagnitude] on a detector with the cursor inside
    the history, for each sub-band [s]: the new value is the scaled sum of
    its bins, the variance starts from the old cell, the beat value is the
    linear map of the new variance, the average is taken over the history
    row as it was before the call, the new value then replaces the cell at
    the cursor of that row, and the cursor moves on by one, modulo the
    history size. *)
Theorem ProcessMagnitude_cell_by_cell {FA : FloatArith} (M : list float)
    (bd : UBeatDetection) (s : nat) :
  ready bd -> Z.of_nat s < FFTSubbandsSize bd ->
  let S := FFTSubbandsSize bd in
  let H := EnergyHistorySize bd in
  exists bd' old row,
    ProcessMagnitude M bd = Some bd' /\
    FFTVariance bd !! s = Some old /\ EnergyHistory bd !! s = Some row /\
    FFTSubbands bd' !! s = Some (SubbandValue M S s) /\
    FFTVariance bd' !! s = Some (VarianceValue M S s old) /\
    FFTBeatValues bd' !! s = Some (BeatValue (VarianceValue M S s old)) /\
    FFTAverageEnergy bd' !! s = Some (AverageValue H row) /\
    EnergyHistory bd' !! s
      = Some (<[Z.to_nat (HistoryPosition bd) := SubbandValue M S s]> row) /\
    HistoryPosition bd' = (HistoryPosition bd + 1) `mod` H /\
    same_sizes bd bd'.
Proof.
  intros Hready Hs S H.
  destruct (UpdateFFT_result_cells M bd s) as (old & row & Hold & Hrow & Hcells);
    [apply Hready | done |].
  exists (UpdateFFT_result M bd), old, row.
  split; [by apply UpdateFFT_ready|]. do 2 (split; [done|]).
  destruct Hcells as (? & ? & ? & ? & ?). do 5 (split; [done|]).
  split; [|done]. simpl. destruct Hready as (_ & [_ HH] & Hpos).
  apply Z.rem_mod_nonneg; lia.
Qed.

Lemma ProcessMagnitude_cell_by_cell_witness :
  let bd := FreshDetector (FA:=binary32) 2 3 in
  let M : list (float (FloatArith:=binary32)) := [f32 1; f32 3; f32 5; f32 7] in
  exists bd' old row,
    ProcessMagnitude M bd = Some bd' /\
    FFTVariance bd !! 1%nat = Some old /\ EnergyHistory bd !! 1%nat = Some row /\
    FFTSubbands bd' !! 1%nat = Some (SubbandValue M 2 1) /\
    FFTVariance bd' !! 1%nat = Some (VarianceValue M 2 1 old) /\
    FFTBeatValues bd' !! 1%nat = Some (BeatValue (VarianceValue M 2 1 old)) /\
    FFTAverageEnergy bd' !! 1%nat = Some (AverageValue 3 row) /\
    EnergyHistory bd' !! 1%nat = Some (<[0%nat := SubbandValue M 2 1]> row) /\
    HistoryPosition bd' = (0 + 1) `mod` 3 /\
    same_sizes bd bd'.
Proof.
  intros bd M.
  apply (ProcessMagnitude_cell_by_cell (FA:=binary32) M bd 1).
  - apply FreshDetector_ready; lia.
  - simpl. lia.
Defined.

(** ** The cursor and the history size *)

(** On a detector that satisfies the class invariant, with positive sizes,
    [ProcessMagnitude] has a result exactly when the cursor is inside the
    history: otherwise the write [EnergyHistory[0][HistoryPosition]] is
    outside the row. *)
Theorem ProcessMagnitude_needs_cursor_inside {FA : FloatArith} (M : list float)
    (bd : UBeatDetection) :
  wf bd -> positive_sizes bd ->
  is_Some (ProcessMagnitude M bd) <-> 0 <= HistoryPosition bd < EnergyHistorySize bd.
Proof. intros Hwf Hsz. by apply UpdateFFT_defined. Qed.

Lemma ProcessMagnitude_needs_cursor_inside_witness :
  let bd := mkBeatDetection (FA:=binary32) 2 1 2 [f32 0] [f32 0] [f32 0] [f32 0]
              [[f32 0; f32 0]] in
  is_Some (ProcessMagnitude (FA:=binary32) [f32 1] bd)
  <-> 0 <= HistoryPosition bd < EnergyHistorySize bd.
Proof.
  intros bd. apply (ProcessMagnitude_needs_cursor_inside (FA:=binary32) [f32 1] bd).
  - split; simpl; try reflexivity; try lia. by repeat constructor.
  - split; simpl; lia.
Defined.

(** [UpdateEnergyHistorySize] does not move the cursor: after the history
    is shrunk to a size that the cursor has reached, the resize itself
    returns, and the next [ProcessMagnitude] has no result. *)
Theorem shrunk_history_stops_updates {FA : FloatArith} (M : list float)
    (bd : UBeatDetection) (h : Z) :
  ready bd -> 0 < h <= HistoryPosition bd ->
  exists bd', UpdateEnergyHistorySize h bd = Some bd' /\
    HistoryPosition bd' = HistoryPosition bd /\ EnergyHistorySize bd' = h /\
    ProcessMagnitude M bd' = None.
Proof.
  intros (Hwf & [HS HH] & Hpos) Hh.
  destruct (UpdateEnergyHistorySize_wf h bd Hwf) as (bd' & Hbd' & Hwf' & HS' & Hpos' & HH').
  destruct (decide (h <= 0)); [lia|].
  exists bd'. do 3 (split; [done|]).
  apply UpdateFFT_cursor_outside; [done| split; lia | lia].
Qed.

Lemma shrunk_history_stops_updates_witness :
  let bd := mkBeatDetection (FA:=binary32) 1 1 2 [f32 0] [f32 0] [f32 0] [f32 0]
              [[f32 4; f32 0]] in
  exists bd', UpdateEnergyHistorySize 1 bd = Some bd' /\
    HistoryPosition bd' = HistoryPosition bd /\ EnergyHistorySize bd' = 1 /\
    ProcessMagnitude (FA:=binary32) [f32 1] bd' = None.
Proof.
  intros bd. apply (shrunk_history_stops_updates (FA:=binary32) [f32 1] bd 1).
  - split; [|split]; [|split; simpl; lia | simpl; lia].
    split; simpl; try reflexivity; try lia. by repeat constructor.
  - simpl. lia.
Defined.

(** ** GetBand, IsSnare, IsHiHat *)

Section BandQueries.
Context {FA : FloatArith}.
Implicit Types (bd : UBeatDetection).

(** [GetBand] always returns: strictly between 0 and [S] it reads the
    sub-band inside the array, everywhere else -- sub-band 0 included -- it
    answers -1. *)
Theorem GetBand_always_answers bd (Subband : Z) :
  wf bd ->
  GetBand Subband bd =
    Some (if bool_decide (0 < Subband < FFTSubbandsSize bd)
          then default (f_of_int 0) (FFTSubbands bd !! Z.to_nat Subband)
          else f_of_int (-1)) /\
  (0 < Subband < FFTSubbandsSize bd -> is_Some (FFTSubbands bd !! Z.to_nat Subband)).
Proof.
  intros Hwf. assert (0 < Subband < FFTSubbandsSize bd ->
                      is_Some (FFTSubbands bd !! Z.to_nat Subband)) as Hin.
  { intros Hs. apply lookup_lt_is_Some_2. rewrite (wf_subbands bd Hwf). lia. }
  split; [|done]. unfold GetBand.
  destruct (decide (0 < Subband < FFTSubbandsSize bd)) as [Hs|Hs].
  - rewrite (bool_decide_eq_true_2 (Subband > 0 /\ _)) by lia.
    rewrite (bool_decide_eq_true_2 (0 < Subband < _)) by done. simpl.
    destruct (Hin Hs) as [x Hx]. unfold at_.
    destruct (decide (0 <= Subband)); [|lia]. by rewrite Hx.
  - rewrite (bool_decide_eq_false_2 (Subband > 0 /\ _)) by lia.
    by rewrite (bool_decide_eq_false_2 (0 < Subband < _)) by done.
Qed.

(** [IsSnare] looks at the sub-bands [1 .. S/3]: with fewer than 6
    sub-bands that is no range and the answer is [false]; from 6 sub-bands on
    it tells whether more than [(S/3 - 1)/3] of them are beats. *)
Theorem IsSnare_needs_six_subbands bd :
  wf bd ->
  let S := FFTSubbandsSize bd in
  IsSnare bd =
    Some (if bool_decide (6 <= S)
          then bool_decide ((S `quot` 3 - 1) `quot` 3 < CountBeats 1 (S `quot` 3) bd)
          else false).
Proof.
  intros Hwf S. unfold IsSnare. fold S. rewrite IsBeatRange_spec by done. fold S.
  pose proof (wf_size bd Hwf) as HS. fold S in HS.
  rewrite (Z.quot_div_nonneg S 3) by lia.
  destruct (decide (6 <= S)).
  - rewrite (bool_decide_eq_true_2 (6 <= S)) by done.
    by rewrite (bool_decide_eq_true_2 (0 <= 1 < S /\ _))
      by (Z.to_euclidean_division_equations; lia).
  - rewrite (bool_decide_eq_false_2 (6 <= S)) by done.
    by rewrite (bool_decide_eq_false_2 (0 <= 1 < S /\ _))
      by (Z.to_euclidean_division_equations; lia).
Qed.

(** [IsHiHat] looks at the sub-bands [S/2 .. S-1]: with fewer than 3
    sub-bands that is no range and the answer is [false]; from 3 sub-bands on
    it tells whether more than [(S-1 - S/2)/3] of them are beats. *)
Theorem IsHiHat_needs_three_subbands bd :
  wf bd ->
  let S := FFTSubbandsSize bd in
  IsHiHat bd =
    Some (if bool_decide (3 <= S)
          then bool_decide ((S - 1 - S `quot` 2) `quot` 3
                            < CountBeats (S `quot` 2) (S - 1) bd)
          else false).
Proof.
  intros Hwf S. unfold IsHiHat. fold S. rewrite IsBeatRange_spec by done. fold S.
  pose proof (wf_size bd Hwf) as HS. fold S in HS.
  rewrite (Z.quot_div_nonneg S 2) by lia.
  destruct (decide (3 <= S)).
  - rewrite (bool_decide_eq_true_2 (3 <= S)) by done.
    by rewrite (bool_decide_eq_true_2 (0 <= _ < S /\ _))
      by (Z.to_euclidean_division_equations; lia).
  - rewrite (bool_decide_eq_false_2 (3 <= S)) by done.
    by rewrite (bool_decide_eq_false_2 (0 <= _ < S /\ _))
      by (Z.to_euclidean_division_equations; lia).
Qed.
End BandQueries.

Lemma GetBand_always_answers_witness :
  let bd := ThreeBandDetector in
  GetBand 2 bd =
    Some (if bool_decide (0 < 2 < FFTSubbandsSize bd)
          then default (f_of_int 0) (FFTSubbands bd !! Z.to_nat 2)
          else f_of_int (-1)) /\
  (0 < 2 < FFTSubbandsSize bd -> is_Some (FFTSubbands bd !! Z.to_nat 2)).
Proof.
  intros bd. apply (GetBand_always_answers (FA:=binary32) bd 2).
  split; simpl; try reflexivity; try lia. by repeat constructor.
Defined.

Lemma IsSnare_needs_six_subbands_witness :
  let bd := ThreeBandDetector in
  let S := FFTSubbandsSize bd in
  IsSnare bd =
    Some (if bool_decide (6 <= S)
          then bool_decide ((S `quot` 3 - 1) `quot` 3 < CountBeats 1 (S `quot` 3) bd)
          else false).
Proof.
  intros bd. apply (IsSnare_needs_six_subbands (FA:=binary32) bd).
  split; simpl; try reflexivity; try lia. by repeat constructor.
Defined.

Lemma IsHiHat_needs_three_subbands_witness :
  let bd := ThreeBandDetector in
  let S := FFTSubbandsSize bd in
  IsHiHat bd =
    Some (if bool_decide (3 <= S)
          then bool_decide ((S - 1 - S `quot` 2) `quot` 3
                            < CountBeats (S `quot` 2) (S - 1) bd)
          else false).
Proof.
  intros bd. apply (IsHiHat_needs_three_subbands (FA:=binary32) bd).
  split; simpl; try reflexivity; try lia. by repeat constructor.
Defined.

(** ** The history as a ring buffer *)

Section RingBuffer.
Context {FA : FloatArith}.
Implicit Types (bd : UBeatDetection) (M : list float) (Ms : list (list float)).

(** going on from a cell by fewer than [h] steps does not come back to it *)
Lemma mod_shift_ne (a h k : Z) : 0 <= a < h -> 0 < k < h -> (a + k) `mod` h <> a.
Proof.
  intros Ha Hk Heq. pose proof (Z.div_mod (a + k) h ltac:(lia)) as Hdm.
  rewrite Heq in Hdm. assert (k = h * ((a + k) `div` h)) as Hq by lia.
  destruct (decide ((a + k) `div` h <= 0)); nia.
Qed.

(** a history cell after one call: the cell at the cursor holds the new
    value, the others are as they were *)
Lemma HistoryCell_after_update M bd (s c : nat) :
  ready bd -> Z.of_nat s < FFTSubbandsSize bd ->
  HistoryCell (UpdateFFT_result M bd) s c =
    if decide (c = Z.to_nat (HistoryPosition bd))
    then Some (SubbandValue M (FFTSubbandsSize bd) s)
    else HistoryCell bd s c.
Proof.
  intros (Hwf & [HS HH] & Hpos) Hs. destruct Hwf as [? Hsub Havg Hvar Hbeat Hhist Hrows].
  destruct (lookup_lt_is_Some_2 (EnergyHistory bd) s) as [row Hrow]; [lia|].
  pose proof (Forall_lookup_1 _ _ _ _ Hrows Hrow) as Hlen. simpl in Hlen.
  unfold HistoryCell. simpl. rewrite list_lookup_imap, Hrow. simpl.
  destruct (decide (c = Z.to_nat (HistoryPosition bd))) as [->|Hc].
  - apply list_lookup_insert_eq. lia.
  - by apply list_lookup_insert_ne.
Qed.

Lemma FeedAll_ring Ms : forall bd,
  ready bd ->
  exists bd', FeedAll Ms bd = Some bd' /\ ready bd' /\ same_sizes bd bd' /\
    HistoryPosition bd'
      = (HistoryPosition bd + Z.of_nat (length Ms)) `mod` EnergyHistorySize bd /\
    forall s : nat, Z.of_nat s < FFTSubbandsSize bd ->
      (forall (k : nat) M, Ms !! k = Some M ->
         Z.of_nat (length Ms) - Z.of_nat k <= EnergyHistorySize bd ->
         HistoryCell bd' s
           (Z.to_nat ((HistoryPosition bd + Z.of_nat k) `mod` EnergyHistorySize bd))
         = Some (SubbandValue M (FFTSubbandsSize bd) s)) /\
      (forall c : nat,
         (forall k : nat, (k < length Ms)%nat ->
            c <> Z.to_nat ((HistoryPosition bd + Z.of_nat k) `mod` EnergyHistorySize bd)) ->
         HistoryCell bd' s c = HistoryCell bd s c).
Proof.
  induction Ms as [|M Ms IH]; intros bd Hready.
  - exists bd. pose proof Hready as (_ & [_ HH] & Hpos).
    split; [done|]. split; [done|]. split; [done|]. split.
    + simpl. rewrite Z.add_0_r, Z.mod_small; lia.
    + intros s Hs. split; [intros k M' Hk; by rewrite lookup_nil in Hk | done].
  - pose proof Hready as (_ & [HS HH] & Hpos).
    pose proof (UpdateFFT_result_ready M bd Hready) as Hready1.
    destruct (IH _ Hready1) as (bd' & Hfeed & Hready' & [HS' HH'] & Hcur & Hcells).
    simpl in HS', HH', Hcur, Hcells.
    assert ((HistoryPosition bd + 1) `rem` EnergyHistorySize bd
            = (HistoryPosition bd + 1) `mod` EnergyHistorySize bd) as Hrem
      by (apply Z.rem_mod_nonneg; lia).
    rewrite Hrem in Hcur, Hcells.
    assert (forall k : Z,
              ((HistoryPosition bd + 1) `mod` EnergyHistorySize bd + k)
                `mod` EnergyHistorySize bd
              = (HistoryPosition bd + (1 + k)) `mod` EnergyHistorySize bd) as Hshift.
    { intros k. rewrite Zplus_mod_idemp_l. f_equal. lia. }
    exists bd'. split.
    { simpl. unfold ProcessMagnitude. by rewrite UpdateFFT_ready. }
    split; [done|]. split; [done|]. split.
    { rewrite Hcur, Hshift. f_equal. simpl length. lia. }
    intros s Hs. destruct (Hcells s Hs) as [Hnew Hold]. split.
    + intros [|k] M' Hk Hlate.
      * injection Hk as <-. simpl length in Hlate.
        rewrite Z.add_0_r, Z.mod_small by lia.
        rewrite Hold.
        -- rewrite HistoryCell_after_update by done.
           by destruct (decide (Z.to_nat (HistoryPosition bd)
                                = Z.to_nat (HistoryPosition bd))).
        -- intros k Hk. rewrite Hshift.
           pose proof (Z.mod_pos_bound (HistoryPosition bd + (1 + Z.of_nat k))
                         (EnergyHistorySize bd) HH) as Hb.
           intros Heq. apply Z2Nat.inj in Heq; [|lia|lia].
           symmetry in Heq. revert Heq. apply mod_shift_ne; lia.
      * simpl in Hk. simpl length in Hlate.
        specialize (Hnew k M' Hk). rewrite Hshift in Hnew.
        replace (Z.of_nat (S k)) with (1 + Z.of_nat k) by lia.
        apply Hnew. lia.
    + intros c Hc. rewrite Hold.
      * rewrite HistoryCell_after_update by done.
        destruct (decide (c = Z.to_nat (HistoryPosition bd))) as [->|]; [|done].
        exfalso. apply (Hc 0%nat); [simpl; lia|].
        by rewrite Z.add_0_r, Z.mod_small by lia.
      * intros k Hk. rewrite Hshift.
        replace (1 + Z.of_nat k) with (Z.of_nat (S k)) by lia.
        apply Hc. simpl. lia.
Qed.
End RingBuffer.

(** The history is a ring buffer.  After any sequence of calls of
    [ProcessMagnitude], with spectra that may all differ, on a detector with
    the cursor inside the history: the cursor has advanced by the number of
    calls modulo [H]; for [j < H] the cell [j + 1] places behind the cursor
    (modulo [H]) holds the sub-band value of the [j]-th most recent call; and
    a cell that none of the calls wrote is as it was. *)
Theorem history_is_a_ring_buffer {FA : FloatArith} (Ms : list (list float))
    (bd : UBeatDetection) (s : nat) :
  ready bd -> Z.of_nat s < FFTSubbandsSize bd ->
  let H := EnergyHistorySize bd in
  let n := Z.of_nat (length Ms) in
  exists bd', FeedAll Ms bd = Some bd' /\
    HistoryPosition bd' = (HistoryPosition bd + n) `mod` H /\
    (forall (j : nat) M, reverse Ms !! j = Some M -> Z.of_nat j < H ->
       HistoryCell bd' s (Z.to_nat ((HistoryPosition bd' - 1 - Z.of_nat j) `mod` H))
       = Some (SubbandValue M (FFTSubbandsSize bd) s)) /\
    (forall c : nat,
       (forall j : nat, Z.of_nat j < n ->
          c <> Z.to_nat ((HistoryPosition bd' - 1 - Z.of_nat j) `mod` H)) ->
       HistoryCell bd' s c = HistoryCell bd s c).
Proof.
  intros Hready Hs H n.
  destruct (FeedAll_ring Ms bd Hready) as (bd' & Hfeed & _ & _ & Hcur & Hcells).
  destruct (Hcells s Hs) as [Hnew Hold]. fold H in Hcur, Hnew, Hold. fold n in Hcur.
  assert (forall j : Z,
            (HistoryPosition bd' - 1 - j) `mod` H
            = (HistoryPosition bd + (n - 1 - j)) `mod` H) as Hbehind.
  { intros j. rewrite Hcur.
    replace ((HistoryPosition bd + n) `mod` H - 1 - j)
      with ((HistoryPosition bd + n) `mod` H - (1 + j)) by lia.
    rewrite Zminus_mod_idemp_l. f_equal. lia. }
  exists bd'. split; [done|]. split; [done|]. split.
  - intros j M Hj HjH.
    apply reverse_lookup_Some in Hj as [Hj Hlt].
    rewrite Hbehind.
    replace (n - 1 - Z.of_nat j) with (Z.of_nat (length Ms - S j)) by (unfold n; lia).
    apply Hnew; [done|lia].
  - intros c Hc. apply Hold. intros k Hk.
    replace (Z.of_nat k) with (n - 1 - Z.of_nat (length Ms - S k)) by (unfold n; lia).
    rewrite <- Hbehind. apply Hc. unfold n. lia.
Qed.

Lemma history_is_a_ring_buffer_witness :
  let bd := FreshDetector (FA:=binary32) 2 3 in
  let Ms : list (list (float (FloatArith:=binary32))) :=
    [[f32 1; f32 3]; [f32 5; f32 7]] in
  exists bd', FeedAll Ms bd = Some bd' /\
    HistoryPosition bd' = (HistoryPosition bd + 2) `mod` 3 /\
    (forall (j : nat) M, reverse Ms !! j = Some M -> Z.of_nat j < 3 ->
       HistoryCell bd' 1 (Z.to_nat ((HistoryPosition bd' - 1 - Z.of_nat j) `mod` 3))
       = Some (SubbandValue M 2 1)) /\
    (forall c : nat,
       (forall j : nat, Z.of_nat j < 2 ->
          c <> Z.to_nat ((HistoryPosition bd' - 1 - Z.of_nat j) `mod` 3)) ->
       HistoryCell bd' 1 c = HistoryCell bd 1 c).
Proof.
  intros bd Ms. apply (history_is_a_ring_buffer (FA:=binary32) Ms bd 1).
  - apply FreshDetector_ready; lia.
  - simpl. lia.
Defined.

(** ** Spectra of awkward lengths *)

Section SpectrumLength.
Context {FA : FloatArith}.
Implicit Types (bd : UBeatDetection) (M : list float).

(** the bins of a sub-band lie in the first [S * Width] bins *)
Lemma SubbandBins_app (body tail : list float) (S : Z) (s : nat) (w : nat) :
  0 < S -> Z.of_nat s < S ->
  Z.of_nat (length body) = S * Z.of_nat w -> Z.of_nat (length tail) < S ->
  SubbandBins (body ++ tail) S s = take w (drop (s * w) body).
Proof.
  intros HS Hs Hbody Htail. unfold SubbandBins, Width.
  rewrite length_app, Nat2Z.inj_add, Hbody.
  replace ((S * Z.of_nat w + Z.of_nat (length tail)) `quot` S) with (Z.of_nat w).
  2: { rewrite Z.quot_div_nonneg by lia. apply Z.div_unique_pos with
         (r := Z.of_nat (length tail)); lia. }
  rewrite Nat2Z.id, !take_drop_commute.
  rewrite take_app_le; [done|]. nia.
Qed.

Lemma Scale_app (body tail tail' : list float) (S : Z) :
  length tail = length tail' -> Scale (body ++ tail) S = Scale (body ++ tail') S.
Proof. intros Hlen. unfold Scale. by rewrite !length_app, Hlen. Qed.

Lemma UpdateFFT_result_tail (body tail tail' : list float) bd (w : nat) :
  wf bd -> 0 < FFTSubbandsSize bd ->
  Z.of_nat (length body) = FFTSubbandsSize bd * Z.of_nat w ->
  length tail = length tail' -> Z.of_nat (length tail) < FFTSubbandsSize bd ->
  UpdateFFT_result (body ++ tail) bd = UpdateFFT_result (body ++ tail') bd.
Proof.
  intros Hwf HS Hbody Hlen Htail. destruct Hwf as [? Hsub Havg Hvar Hbeat Hhist Hrows].
  assert (forall s : nat, Z.of_nat s < FFTSubbandsSize bd ->
            SubbandValue (body ++ tail) (FFTSubbandsSize bd) s
            = SubbandValue (body ++ tail') (FFTSubbandsSize bd) s) as Hval.
  { intros s Hs. unfold SubbandValue.
    rewrite (SubbandBins_app body tail _ s w), (SubbandBins_app body tail' _ s w)
      by (done || lia).
    by rewrite (Scale_app body tail tail'). }
  assert (forall (s : nat) old, Z.of_nat s < FFTSubbandsSize bd ->
            VarianceValue (body ++ tail) (FFTSubbandsSize bd) s old
            = VarianceValue (body ++ tail') (FFTSubbandsSize bd) s old) as Hvarv.
  { intros s old Hs. unfold VarianceValue.
    rewrite (SubbandBins_app body tail _ s w), (SubbandBins_app body tail' _ s w)
      by (done || lia).
    by rewrite (Scale_app body tail tail'), Hval. }
  unfold UpdateFFT_result. f_equal.
  - apply imap_ext. intros s x Hx. apply lookup_lt_Some in Hx. apply Hval. lia.
  - apply imap_ext. intros s x Hx. apply lookup_lt_Some in Hx. apply Hvarv. lia.
  - apply imap_ext. intros s x Hx. apply lookup_lt_Some in Hx. simpl.
    f_equal. apply Hvarv. lia.
  - apply imap_ext. intros s x Hx. apply lookup_lt_Some in Hx. simpl.
    f_equal. apply Hval. lia.
Qed.
End SpectrumLength.

(** The bins after the last whole sub-band are never read: when the
    spectrum has [S * w + t] bins with [t < S], replacing the last [t] bins
    by any others gives the same detector.  (They still count in the length
    that scales the sums.) *)
Theorem spectrum_tail_is_not_read {FA : FloatArith} (body tail tail' : list float)
    (bd : UBeatDetection) (w : nat) :
  ready bd ->
  Z.of_nat (length body) = FFTSubbandsSize bd * Z.of_nat w ->
  length tail = length tail' -> Z.of_nat (length tail) < FFTSubbandsSize bd ->
  ProcessMagnitude (body ++ tail) bd = ProcessMagnitude (body ++ tail') bd /\
  is_Some (ProcessMagnitude (body ++ tail) bd).
Proof.
  intros Hready Hbody Hlen Htail. unfold ProcessMagnitude.
  rewrite !UpdateFFT_ready by done. split; [|eauto]. f_equal.
  apply (UpdateFFT_result_tail body tail tail' bd w); try done;
    [apply Hready | apply Hready].
Qed.

Lemma spectrum_tail_is_not_read_witness :
  let bd := FreshDetector (FA:=binary32) 2 3 in
  let body : list (float (FloatArith:=binary32)) := [f32 1; f32 3; f32 5; f32 7] in
  ProcessMagnitude (body ++ [f32 9]) bd = ProcessMagnitude (body ++ [f32 0]) bd /\
  is_Some (ProcessMagnitude (body ++ [f32 9]) bd).
Proof.
  intros bd body.
  apply (spectrum_tail_is_not_read (FA:=binary32) body [f32 9] [f32 0] bd 2).
  - apply FreshDetector_ready; lia.
  - reflexivity.
  - reflexivity.
  - simpl. lia.
Defined.

(** ** An empty spectrum, in binary32 *)

(** [0 * (x / 0)] is a NaN whatever [x] is *)
Lemma zero_times_ratio_is_nan (x : spec_float) :
  B32.mul (B32.of_Z 0) (B32.div x (B32.of_Z 0)) = S754_nan.
Proof. by destruct x as [[]|[]| |[] m e]. Qed.

(** nothing is below a NaN *)
Lemma nan_is_not_greater (x : spec_float) : B32.gt S754_nan x = false.
Proof. by destruct x as [[]|[]| |[] m e]. Qed.

(** [UpdateFFT] does not look at the length of the spectrum: with an empty
    one every sub-band has no bin and the scale is [S / 0], so that, in the
    single-precision arithmetic of the code, each sub-band value is the NaN
    of [0 * (S / 0)]; it enters the history at the cursor, and [IsBeat]
    answers [false] on every sub-band. *)
Theorem empty_spectrum_stores_nan (bd : UBeatDetection (FA:=binary32)) (s : nat) :
  ready bd -> Z.of_nat s < FFTSubbandsSize bd ->
  exists bd', ProcessMagnitude [] bd = Some bd' /\
    FFTSubbands bd' !! s = Some S754_nan /\
    HistoryCell bd' s (Z.to_nat (HistoryPosition bd)) = Some S754_nan /\
    IsBeat (Z.of_nat s) bd' = Some false.
Proof.
  intros Hready Hs.
  assert (SubbandValue (FA:=binary32) [] (FFTSubbandsSize bd) s = S754_nan) as Hnan.
  { unfold SubbandValue, SubbandBins, Scale. rewrite drop_nil, take_nil.
    apply zero_times_ratio_is_nan. }
  destruct (UpdateFFT_result_cells [] bd s) as (old & row & _ & _ & Hsub & _);
    [apply Hready | done |]. rewrite Hnan in Hsub.
  exists (UpdateFFT_result [] bd). split; [by apply UpdateFFT_ready|].
  split; [done|]. split.
  - rewrite HistoryCell_after_update by done. rewrite Hnan.
    by destruct (decide (Z.to_nat (HistoryPosition bd) = Z.to_nat (HistoryPosition bd))).
  - pose proof (UpdateFFT_result_ready [] bd Hready) as (Hwf' & _ & _).
    destruct (IsBeat_in_range (UpdateFFT_result [] bd) (Z.of_nat s) Hwf')
      as (e & avg & c & He & _ & _ & ->); [simpl; lia|].
    rewrite at_nat, Hsub in He. injection He as <-.
    f_equal. apply nan_is_not_greater.
Qed.

Lemma empty_spectrum_stores_nan_witness :
  let bd := FreshDetector (FA:=binary32) 2 3 in
  exists bd', ProcessMagnitude [] bd = Some bd' /\
    FFTSubbands bd' !! 1%nat = Some S754_nan /\
    HistoryCell bd' 1 (Z.to_nat (HistoryPosition bd)) = Some S754_nan /\
    IsBeat (Z.of_nat 1) bd' = Some false.
Proof.
  intros bd. apply (empty_spectrum_stores_nan bd 1).
  - apply FreshDetector_ready; lia.
  - simpl. lia.
Defined.

(** ** The first call on a new detector *)

Lemma sum_of_zeros (n : nat) : foldl Rplus 0%R (replicate n 0%R) = 0%R.
Proof.
  induction n as [|n IH]; [done|]. simpl. by rewrite Rplus_0_r.
Qed.

Lemma first_call_over_reals (M : list (float (FloatArith:=exact)))
    (S H : Z) (s : nat) :
  0 < S -> 0 < H -> Z.of_nat s < S ->
  exists bd',
    and_then (CreateBeatDetection (FA:=exact) S H) (ProcessMagnitude (FA:=exact) M)
      = Some bd' /\
    FFTAverageEnergy bd' !! s = Some 0%R /\
    IsBeat (Z.of_nat s) bd' = Some (Rgtb (SubbandValue (FA:=exact) M S s) 0).
Proof.
  intros HS HH Hs.
  pose proof (FreshDetector_ready (FA:=exact) S H HS HH) as Hready.
  rewrite CreateBeatDetection_fresh by done. simpl.
  exists (UpdateFFT_result M (FreshDetector S H)).
  split; [by apply UpdateFFT_ready|].
  destruct (UpdateFFT_result_cells M (FreshDetector (FA:=exact) S H) s)
    as (old & row & _ & Hrow & Hsub & _ & _ & Havg & _); [apply Hready | done |].
  simpl in Hrow. apply lookup_replicate in Hrow as [-> _].
  assert (AverageValue (FA:=exact) H (replicate (Z.to_nat H) 0%R) = 0%R) as Hzero.
  { unfold AverageValue. simpl. rewrite sum_of_zeros. unfold Rdiv. apply Rmult_0_l. }
  simpl EnergyHistorySize in Havg. simpl f_of_int in Havg. rewrite Hzero in Havg.
  split; [done|].
  pose proof (UpdateFFT_result_ready M _ Hready) as (Hwf' & _ & _).
  destruct (IsBeat_in_range (UpdateFFT_result M (FreshDetector S H)) (Z.of_nat s) Hwf')
    as (e & avg & c & He & Ha & _ & ->); [simpl; lia|].
  rewrite at_nat in He, Ha. rewrite Hsub in He. rewrite Havg in Ha.
  injection He as <-. injection Ha as <-. simpl. by rewrite Rmult_0_l.
Qed.

Lemma first_call_any_arithmetic {FA : FloatArith} (M : list float) (S H : Z)
    (s : nat) :
  0 < S -> 0 < H -> Z.of_nat s < S ->
  let e := SubbandValue M S s in
  let avg := AverageValue H (replicate (Z.to_nat H) (f_of_int 0)) in
  let c := BeatValue (VarianceValue M S s (f_of_int 0)) in
  exists bd',
    and_then (CreateBeatDetection S H) (ProcessMagnitude M) = Some bd' /\
    FFTSubbands bd' !! s = Some e /\
    FFTAverageEnergy bd' !! s = Some avg /\
    FFTBeatValues bd' !! s = Some c /\
    IsBeat (Z.of_nat s) bd' = Some (fgt e (fmul avg c)).
Proof.
  intros HS HH Hs e avg c.
  pose proof (FreshDetector_ready S H HS HH) as Hready.
  rewrite CreateBeatDetection_fresh by done. unfold and_then. simpl.
  exists (UpdateFFT_result M (FreshDetector S H)).
  split; [by apply UpdateFFT_ready|].
  destruct (UpdateFFT_result_cells M (FreshDetector S H) s)
    as (old & row & Hold & Hrow & Hsub & _ & Hbeat & Havg & _); [apply Hready | done |].
  cbn [FreshDetector FFTVariance EnergyHistory] in Hold, Hrow.
  apply lookup_replicate in Hold as [-> _]. apply lookup_replicate in Hrow as [-> _].
  change (FFTSubbandsSize (FreshDetector S H)) with S in Hsub, Hbeat.
  change (EnergyHistorySize (FreshDetector S H)) with H in Havg.
  do 3 (split; [done|]).
  pose proof (UpdateFFT_result_ready M _ Hready) as (Hwf' & _ & _).
  destruct (IsBeat_in_range (UpdateFFT_result M (FreshDetector S H)) (Z.of_nat s) Hwf')
    as (e' & avg' & c' & He & Ha & Hc & ->); [simpl; lia|].
  rewrite at_nat in He, Ha, Hc. by simplify_eq.
Qed.

(** The first call on a detector fresh from [CreateBeatDetection].  In any
    arithmetic the history holds only zeros, the average energy of every
    sub-band is the average of [H] zeros, and [IsBeat] compares the sub-band
    value with that average times the coefficient of the first variance.
    Over the reals the average is 0 and [IsBeat] reports exactly the
    sub-bands whose value is positive.  In binary32 an overflow breaks this:
    with the bins [2^127, 2^127] the value is [+inf], the coefficient
    [-inf], their product with the average 0 a NaN, and [IsBeat] is
    [false]. *)
Theorem first_call_compares_with_zero :
  (forall (FA : FloatArith) (M : list float) (S H : Z) (s : nat),
     0 < S -> 0 < H -> Z.of_nat s < S ->
     let e := SubbandValue M S s in
     let avg := AverageValue H (replicate (Z.to_nat H) (f_of_int 0)) in
     let c := BeatValue (VarianceValue M S s (f_of_int 0)) in
     exists bd',
       and_then (CreateBeatDetection S H) (ProcessMagnitude M) = Some bd' /\
       FFTSubbands bd' !! s = Some e /\
       FFTAverageEnergy bd' !! s = Some avg /\
       FFTBeatValues bd' !! s = Some c /\
       IsBeat (Z.of_nat s) bd' = Some (fgt e (fmul avg c))) /\
  (forall (M : list (float (FloatArith:=exact))) (S H : Z) (s : nat),
     0 < S -> 0 < H -> Z.of_nat s < S ->
     exists bd',
       and_then (CreateBeatDetection (FA:=exact) S H) (ProcessMagnitude (FA:=exact) M)
         = Some bd' /\
       FFTAverageEnergy bd' !! s = Some 0%R /\
       IsBeat (Z.of_nat s) bd' = Some (Rgtb (SubbandValue (FA:=exact) M S s) 0)) /\
  (let r := FeedFresh 1 2 1 [f32 (2 ^ 127); f32 (2 ^ 127)] in
   FFTSubbands (FA:=binary32) <$> r = Some [S754_infinity false] /\
   FFTAverageEnergy (FA:=binary32) <$> r = Some [S754_zero false] /\
   FFTBeatValues (FA:=binary32) <$> r = Some [S754_infinity true] /\
   and_then r (IsBeat 0) = Some false).
Proof.
  split; [exact (@first_call_any_arithmetic)|].
  split; [exact first_call_over_reals|].
  vm_compute. repeat split; reflexivity.
Qed.

Lemma first_call_compares_with_zero_witness :
  (let M : list (float (FloatArith:=binary32)) := [f32 1; f32 3; f32 5; f32 7] in
   let e := SubbandValue M 2 1 in
   let avg := AverageValue 3 (replicate (Z.to_nat 3) (f_of_int 0)) in
   let c := BeatValue (VarianceValue M 2 1 (f_of_int 0)) in
   exists bd',
     and_then (CreateBeatDetection 2 3) (ProcessMagnitude M) = Some bd' /\
     FFTSubbands bd' !! 1%nat = Some e /\
     FFTAverageEnergy bd' !! 1%nat = Some avg /\
     FFTBeatValues bd' !! 1%nat = Some c /\
     IsBeat (Z.of_nat 1) bd' = Some (fgt e (fmul avg c))) /\
  (exists bd',
     and_then (CreateBeatDetection (FA:=exact) 2 3)
              (ProcessMagnitude (FA:=exact) [1; 3; 5; 7]%R)
       = Some bd' /\
     FFTAverageEnergy bd' !! 1%nat = Some 0%R /\
     IsBeat (Z.of_nat 1) bd'
       = Some (Rgtb (SubbandValue (FA:=exact) [1; 3; 5; 7]%R 2 1) 0)).
Proof.
  split.
  - intros M.
    apply (proj1 first_call_compares_with_zero binary32 M 2 3 1%nat); lia.
  - apply (proj1 (proj2 first_call_compares_with_zero) [1; 3; 5; 7]%R 2 3 1%nat); lia.
Defined.

(** ** The time-domain features of any frame *)

Section FrameFacts.
Context {FA : FloatArith}.
Implicit Types (AudioFrame : list float).

Lemma SignChanges_cons (prev cur : float) (rest : list float) :
  SignChanges (prev :: cur :: rest)
  = ((if negb (eqb (fgt cur (f_of_int 0)) (fgt prev (f_of_int 0))) then 1 else 0)
     + SignChanges (cur :: rest))%nat.
Proof. done. Qed.

(** the loop of [GetZeroCrossingRate] from any sample on: [p] is the part
    of the frame already left behind *)
Lemma ZeroCrossing_loop (rest : list float) : forall (p : list float) (prev v : float),
  for_count (length rest) (Z.of_nat (length p) + 1)
            (ZeroCrossingStep (p ++ prev :: rest)) v
  = Some (Nat.iter (SignChanges (prev :: rest)) CountUp v).
Proof.
  induction rest as [|cur rest IH]; intros p prev v; [done|].
  assert (ZeroCrossingStep (p ++ prev :: cur :: rest) (Z.of_nat (length p) + 1) v
          = Some (if negb (eqb (fgt cur (f_of_int 0)) (fgt prev (f_of_int 0)))
                  then CountUp v else v)) as Hstep.
  { unfold ZeroCrossingStep.
    replace (Z.of_nat (length p) + 1 - 1) with (Z.of_nat (length p)) by lia.
    replace (Z.of_nat (length p) + 1) with (Z.of_nat (S (length p))) by lia.
    rewrite !at_nat.
    rewrite (lookup_app_r p _ (S (length p))) by lia.
    rewrite (lookup_app_r p _ (length p)) by lia.
    replace (S (length p) - length p)%nat with 1%nat by lia.
    rewrite Nat.sub_diag. simpl. by destruct (negb _). }
  cbn [length for_count]. rewrite Hstep. cbn [mbind option_bind].
  specialize (IH (p ++ [prev]) cur).
  rewrite <- app_assoc, length_app in IH. cbn [app length] in IH.
  replace (Z.of_nat (length p + 1) + 1) with (Z.of_nat (length p) + 1 + 1) in IH by lia.
  rewrite IH. f_equal. rewrite SignChanges_cons.
  destruct (negb (eqb (fgt cur (f_of_int 0)) (fgt prev (f_of_int 0)))); [|done].
  change (1 + SignChanges (cur :: rest))%nat with (S (SignChanges (cur :: rest))).
  by rewrite Nat.iter_succ_r.
Qed.

(** [GetZeroCrossingRate] counts up once for every sign change *)
Lemma GetZeroCrossingRate_counts AudioFrame :
  GetZeroCrossingRate AudioFrame
  = Some (Nat.iter (SignChanges AudioFrame) CountUp (f_of_int 0)).
Proof.
  unfold GetZeroCrossingRate, for_loop. destruct AudioFrame as [|x rest]; [done|].
  replace (Z.to_nat (Z.of_nat (length (x :: rest)) - 1)) with (length rest)
    by (simpl; lia).
  exact (ZeroCrossing_loop rest [] x (f_of_int 0)).
Qed.

Lemma SignChanges_bound AudioFrame : (SignChanges AudioFrame <= length AudioFrame - 1)%nat.
Proof.
  induction AudioFrame as [|x [|y rest] IH]; [done|done|].
  rewrite SignChanges_cons. cbn [length] in *.
  destruct (negb _); lia.
Qed.

(** the search of [GetPeakEnergy] ends on its start value or on the
    magnitude of a sample *)
Lemma Peak_loop_result AudioFrame : forall p : float,
  let r := foldl (fun Peak Frame => let AbsSample := fabs Frame in
                                    if fgt AbsSample Peak then AbsSample else Peak)
                 p AudioFrame in
  r = p \/ exists x, x ∈ AudioFrame /\ r = fabs x.
Proof.
  induction AudioFrame as [|x l IH]; intros p; [by left|].
  cbn [foldl]. cbv zeta.
  destruct (IH (if fgt (fabs x) p then fabs x else p)) as [Hr|(y & Hy & Hr)].
  - cbv zeta in Hr. rewrite Hr. destruct (fgt (fabs x) p); [|by left].
    right. exists x. split; [left|done].
  - right. exists y. split; [by right|done].
Qed.
End FrameFacts.

(** [GetPeakEnergy] returns the value -10000 its search starts from or the
    magnitude of one of the samples, in any arithmetic. *)
Theorem peak_is_a_sample_or_the_start {FA : FloatArith} (AudioFrame : list float) :
  GetPeakEnergy AudioFrame = f_of_int (-10000) \/
  exists x, x ∈ AudioFrame /\ GetPeakEnergy AudioFrame = fabs x.
Proof. apply Peak_loop_result. Qed.

Lemma nan_never_peaks (p : spec_float) : B32.gt (SFabs S754_nan) p = false.
Proof. by destruct p as [[]|[]| |[] m e]. Qed.

(** In single precision a sample that is a NaN never becomes the peak and
    never changes it: [GetPeakEnergy] of a frame is that of the frame without
    its NaN samples. *)
Theorem peak_skips_nan (before after : list spec_float) :
  GetPeakEnergy (FA:=binary32) (before ++ S754_nan :: after)
  = GetPeakEnergy (FA:=binary32) (before ++ after).
Proof.
  unfold GetPeakEnergy. rewrite !foldl_app. cbn [foldl]. cbv zeta.
  cbn [fgt fabs binary32]. by rewrite nan_never_peaks.
Qed.

(** *** Over the reals *)

Lemma CountUp_exact (n : nat) : Nat.iter n (CountUp (FA:=exact)) 0%R = INR n.
Proof.
  induction n as [|n IH]; [done|].
  rewrite S_INR.
  change (Nat.iter (S n) (CountUp (FA:=exact)) 0%R)
    with (CountUp (FA:=exact) (Nat.iter n (CountUp (FA:=exact)) 0%R)).
  rewrite IH. unfold CountUp. simpl.
  change (10 ^ Z.of_nat 0) with 1. lra.
Qed.

(** in binary32 the counter stays at 2^24 once it is there *)
Lemma CountUp_saturates (k : nat) :
  Nat.iter k (CountUp (FA:=binary32)) (f32 16777216) = f32 16777216.
Proof.
  induction k as [|k IH]; [done|].
  change (Nat.iter (S k) (CountUp (FA:=binary32)) (f32 16777216))
    with (CountUp (FA:=binary32) (Nat.iter k (CountUp (FA:=binary32)) (f32 16777216))).
  rewrite IH. vm_compute. reflexivity.
Qed.

(** [GetZeroCrossingRate] is a count, not a rate.  In any arithmetic it
    returns the float that starts at 0 and receives [+= 1.0] once for every
    pair of neighbouring samples of which exactly one is positive; there are
    at most as many such pairs as samples minus one, and nothing is divided
    by the length of the frame.  Over the reals that float is the number of
    pairs; in binary32 the counter does not move on from 2^24. *)
Theorem zero_crossing_rate_is_a_count :
  (forall (FA : FloatArith) (AudioFrame : list float),
     GetZeroCrossingRate AudioFrame
       = Some (Nat.iter (SignChanges AudioFrame) CountUp (f_of_int 0)) /\
     (SignChanges AudioFrame <= length AudioFrame - 1)%nat) /\
  (forall n : nat, Nat.iter n (CountUp (FA:=exact)) 0%R = INR n) /\
  (forall k : nat,
     Nat.iter k (CountUp (FA:=binary32)) (f32 16777216) = f32 16777216).
Proof.
  split; [|split; [exact CountUp_exact | exact CountUp_saturates]].
  intros FA AudioFrame. split; [apply GetZeroCrossingRate_counts|apply SignChanges_bound].
Qed.

Lemma Peak_loop_exact (l : list R) : forall p : R,
  let r := foldl (fun Peak Frame : R => if Rgtb (Rabs Frame) Peak then Rabs Frame else Peak)
                 p l in
  (p <= r)%R /\ forall x, x ∈ l -> (Rabs x <= r)%R.
Proof.
  induction l as [|x l IH]; intros p.
  - split; [simpl; lra | intros x Hx; by apply elem_of_nil in Hx].
  - cbn [foldl]. cbv zeta.
    destruct (IH (if Rgtb (Rabs x) p then Rabs x else p)) as [Hp Hall].
    cbv zeta in Hp, Hall.
    assert (p <= (if Rgtb (Rabs x) p then Rabs x else p)
            /\ Rabs x <= (if Rgtb (Rabs x) p then Rabs x else p))%R as [H1 H2].
    { unfold Rgtb. destruct (Rlt_dec p (Rabs x)); lra. }
    split; [lra|]. intros y Hy. apply elem_of_cons in Hy as [->|Hy]; [lra|by apply Hall].
Qed.

(** Over the reals, the peak of a frame with at least one sample is the
    largest magnitude of its samples: no sample exceeds it and one sample
    attains it. *)
Theorem peak_is_the_largest_magnitude (AudioFrame : list R) :
  AudioFrame <> [] ->
  let Peak := GetPeakEnergy (FA:=exact) AudioFrame in
  (forall x, x ∈ AudioFrame -> (Rabs x <= Peak)%R) /\
  (exists x, x ∈ AudioFrame /\ Peak = Rabs x).
Proof.
  intros Hne Peak.
  destruct (Peak_loop_exact AudioFrame (-10000)%R) as [_ Hall].
  split; [exact Hall|].
  destruct (Peak_loop_result (FA:=exact) AudioFrame (f_of_int (-10000)))
    as [Hstart|Hsample]; [|done].
  exfalso. destruct AudioFrame as [|x l]; [done|].
  specialize (Hall x ltac:(left)). pose proof (Rabs_pos x).
  unfold GetPeakEnergy in Hstart. simpl in Hstart, Hall. lra.
Qed.

Lemma peak_is_the_largest_magnitude_witness :
  let Peak := GetPeakEnergy (FA:=exact) [3; -4]%R in
  (forall x, x ∈ [3; -4]%R -> (Rabs x <= Peak)%R) /\
  (exists x, x ∈ [3; -4]%R /\ Peak = Rabs x).
Proof. apply (peak_is_the_largest_magnitude [3; -4]%R). discriminate. Defined.





(** ** Reading a frame range: every outcome *)

Section FrameOutcomes.
Context {FA : FloatArith}.

(** a range that is not valid is refused on a consistent wave *)
Lemma GetAudioFrame_invalid_range (w : UImportedSoundWave) (StartFrame EndFrame : Z)
    (AudioFrame : list float) :
  consistent_wave w -> in_int32 StartFrame -> in_int32 EndFrame ->
  ~ (0 <= StartFrame < EndFrame /\ EndFrame <= PCMNumOfFrames w) ->
  GetAudioFrameFromSoundWaveByFramesCustom w StartFrame EndFrame AudioFrame
    = Some (false, AudioFrame).
Proof.
  intros (Hch & Hfr & Hlen & Hmax) HS HE Hbad.
  unfold GetAudioFrameFromSoundWaveByFramesCustom.
  destruct (decide (StartFrame >= 0 /\ StartFrame < EndFrame)) as [H1|H1].
  2: { by rewrite (bool_decide_eq_false_2 _ H1). }
  rewrite (bool_decide_eq_true_2 _ H1). simpl.
  rewrite (bool_decide_eq_true_2 (EndFrame > 0 /\ _)) by lia. simpl.
  unfold in_int32 in HE. unfold to_uint32. rewrite (Z.mod_small EndFrame) by lia.
  by rewrite (bool_decide_eq_true_2 (EndFrame > _)) by lia.
Qed.
End FrameOutcomes.

(** On a sound wave whose buffer holds [PCMNumOfFrames * NumChannels]
    samples, [GetAudioFrameFromSoundWaveByFramesCustom] returns for all
    [int32] arguments; it succeeds exactly on the ranges with
    [0 <= StartFrame < EndFrame <= PCMNumOfFrames], and when it refuses a
    range the output frame is the one the caller passed in. *)
Theorem frame_range_is_accepted_iff_valid {FA : FloatArith} (w : UImportedSoundWave)
    (StartFrame EndFrame : Z) (AudioFrame : list float) :
  consistent_wave w -> in_int32 StartFrame -> in_int32 EndFrame ->
  exists ok Frame,
    GetAudioFrameFromSoundWaveByFramesCustom w StartFrame EndFrame AudioFrame
      = Some (ok, Frame) /\
    (ok = true <-> 0 <= StartFrame < EndFrame /\ EndFrame <= PCMNumOfFrames w) /\
    (ok = false -> Frame = AudioFrame).
Proof.
  intros Hw HS HE.
  destruct (decide (0 <= StartFrame < EndFrame /\ EndFrame <= PCMNumOfFrames w))
    as [[Hr He]|Hbad].
  - destruct (GetAudioFrame_valid_range w StartFrame EndFrame AudioFrame Hw Hr He)
      as [Hcall _].
    eexists true, _. split; [exact Hcall|]. split; [done|discriminate].
  - exists false, AudioFrame. split; [by apply GetAudioFrame_invalid_range|].
    split; [|done]. split; [discriminate|done].
Qed.

Lemma frame_range_is_accepted_iff_valid_witness :
  let w := mkSoundWave (FA:=binary32) [f32 10; f32 11; f32 20; f32 21] 2 2 in
  exists ok Frame,
    GetAudioFrameFromSoundWaveByFramesCustom w 1 3 [f32 7] = Some (ok, Frame) /\
    (ok = true <-> 0 <= 1 < 3 /\ 3 <= PCMNumOfFrames w) /\
    (ok = false -> Frame = [f32 7]).
Proof.
  intros w.
  apply (frame_range_is_accepted_iff_valid (FA:=binary32) w 1 3 [f32 7]).
  - unfold consistent_wave. simpl. lia.
  - unfold in_int32. lia.
  - unfold in_int32. lia.
Defined.



(** ** Resizing the history back and forth *)

Section ResizeTwice.
Context {FA : FloatArith}.
Implicit Types (bd : UBeatDetection).

Lemma UpdateEnergyHistorySize_twice (h h' : Z) bd :
  wf bd -> 0 < h -> 0 < h' ->
  and_then (UpdateEnergyHistorySize h bd) (UpdateEnergyHistorySize h')
  = Some (with_EnergyHistory
            ((fun row => SetNum (f_of_int 0) h' (SetNum (f_of_int 0) h row))
               <$> EnergyHistory bd)
            (with_EnergyHistorySize h' bd)).
Proof.
  intros Hwf Hh Hh'. unfold and_then.
  rewrite UpdateEnergyHistorySize_accepts by (done || apply Hwf). simpl.
  rewrite UpdateEnergyHistorySize_accepts
    by (simpl; rewrite ?length_fmap; (done || apply Hwf)).
  simpl. unfold with_EnergyHistory, with_EnergyHistorySize. simpl.
  by rewrite <- list_fmap_compose.
Qed.
End ResizeTwice.

(** Growing the history and shrinking it back to its size gives the
    detector as it was: the cells that [SetNum] added are the ones it takes
    away again. *)
Theorem history_grow_then_shrink_is_identity {FA : FloatArith} (bd : UBeatDetection)
    (h : Z) :
  wf bd -> 0 < EnergyHistorySize bd <= h ->
  and_then (UpdateEnergyHistorySize h bd)
           (UpdateEnergyHistorySize (EnergyHistorySize bd)) = Some bd.
Proof.
  intros Hwf Hh. rewrite UpdateEnergyHistorySize_twice by (done || lia).
  pose proof (wf_rows bd Hwf) as Hrows.
  destruct bd as [pos S H sub avg var beat eh]. simpl in *.
  unfold with_EnergyHistory, with_EnergyHistorySize. simpl. do 2 f_equal.
  rewrite <- (list_fmap_id eh) at 2. apply Forall_fmap_ext.
  eapply Forall_impl; [exact Hrows|]. intros row Hrow. simpl. unfold SetNum.
  rewrite resize_resize by lia. rewrite <- Hrow. apply resize_all.
Qed.

Lemma history_grow_then_shrink_is_identity_witness :
  and_then (UpdateEnergyHistorySize 4 ThreeBandDetector)
           (UpdateEnergyHistorySize (EnergyHistorySize ThreeBandDetector))
  = Some ThreeBandDetector.
Proof.
  apply (history_grow_then_shrink_is_identity (FA:=binary32) ThreeBandDetector 4).
  - split; simpl; try reflexivity; try lia. by repeat constructor.
  - simpl. lia.
Defined.

(** Shrinking the history and growing it back to its size loses the cells
    that were cut off: those below the smaller size keep their value, the
    others come back as zero. *)
Theorem history_shrink_then_grow_forgets {FA : FloatArith} (bd : UBeatDetection)
    (h : Z) (s k : nat) :
  wf bd -> 0 < h <= EnergyHistorySize bd ->
  Z.of_nat s < FFTSubbandsSize bd -> Z.of_nat k < EnergyHistorySize bd ->
  exists bd',
    and_then (UpdateEnergyHistorySize h bd)
             (UpdateEnergyHistorySize (EnergyHistorySize bd)) = Some bd' /\
    same_sizes bd bd' /\ HistoryPosition bd' = HistoryPosition bd /\
    HistoryCell bd' s k
      = (if decide (Z.of_nat k < h) then HistoryCell bd s k else Some (f_of_int 0)).
Proof.
  intros Hwf Hh Hs Hk. rewrite UpdateEnergyHistorySize_twice by (done || lia).
  eexists. split; [done|]. split; [done|]. split; [done|].
  destruct Hwf as [? Hsub Havg Hvar Hbeat Hhist Hrows].
  destruct (lookup_lt_is_Some_2 (EnergyHistory bd) s) as [row Hrow]; [lia|].
  pose proof (Forall_lookup_1 _ _ _ _ Hrows Hrow) as Hlen. simpl in Hlen.
  unfold HistoryCell. simpl. rewrite list_lookup_fmap, Hrow. simpl.
  rewrite SetNum_lookup by lia.
  destruct (decide (Z.of_nat k < h)) as [Hlt|Hge].
  - rewrite SetNum_lookup by lia.
    destruct (lookup_lt_is_Some_2 row k) as [x Hx]; [lia|]. by rewrite Hx.
  - unfold SetNum. by rewrite (lookup_ge_None_2 (resize _ _ _))
      by (rewrite length_resize; lia).
Qed.

Lemma history_shrink_then_grow_forgets_witness :
  let bd := mkBeatDetection (FA:=binary32) 0 1 2 [f32 0] [f32 0] [f32 0] [f32 0]
              [[f32 4; f32 6]] in
  exists bd',
    and_then (UpdateEnergyHistorySize 1 bd)
             (UpdateEnergyHistorySize (EnergyHistorySize bd)) = Some bd' /\
    same_sizes bd bd' /\ HistoryPosition bd' = HistoryPosition bd /\
    HistoryCell bd' 0 1
      = (if decide (Z.of_nat 1 < 1) then HistoryCell bd 0 1 else Some (f_of_int 0)).
Proof.
  intros bd. apply (history_shrink_then_grow_forgets (FA:=binary32) bd 1 0 1).
  - split; simpl; try reflexivity; try lia. by repeat constructor.
  - simpl. lia.
  - simpl. lia.
  - simpl. lia.
Defined.

(** ** A detector that was never sized *)

(** Without sub-bands the three loops of [UpdateFFT] do nothing and only
    the cursor moves; on an object that is as its constructor left it
    ([EnergyHistorySize] 0) the cursor update divides by zero and the call
    has no result. *)
Theorem update_without_subbands {FA : FloatArith} (M : list float)
    (bd : UBeatDetection) :
  FFTSubbandsSize bd <= 0 ->
  ProcessMagnitude M bd =
    (if decide (EnergyHistorySize bd = 0) then None
     else Some (with_HistoryPosition
                  ((HistoryPosition bd + 1) `rem` EnergyHistorySize bd) bd)) /\
  ProcessMagnitude M NewObject = None.
Proof.
  intros HS. split; [|done].
  assert (Z.to_nat (FFTSubbandsSize bd - 0) = 0%nat) as Hn by lia.
  unfold ProcessMagnitude, UpdateFFT, for_loop.
  rewrite Hn. simpl. rewrite Hn. simpl. by rewrite Hn.
Qed.

Lemma update_without_subbands_witness :
  let bd := mkBeatDetection (FA:=binary32) 1 0 2 [] [] [] [] [] in
  ProcessMagnitude (FA:=binary32) [f32 1] bd =
    (if decide (EnergyHistorySize bd = 0) then None
     else Some (with_HistoryPosition
                  ((HistoryPosition bd + 1) `rem` EnergyHistorySize bd) bd)) /\
  ProcessMagnitude (FA:=binary32) [f32 1] NewObject = None.
Proof.
  intros bd. apply (update_without_subbands (FA:=binary32) [f32 1] bd). simpl. lia.
Defined.

(** ** Non-negative energies, over the reals *)

Lemma sum_nonnegative (l : list R) :
  Forall (fun x : R => (0 <= x)%R) l -> forall a : R, (0 <= a)%R ->
  (0 <= foldl Rplus a l)%R.
Proof.
  induction 1 as [|x l Hx _ IH]; intros a Ha; [done|].
  simpl. apply IH. lra.
Qed.

Lemma SubbandValue_nonnegative (M : list (float (FloatArith:=exact))) (S : Z) (s : nat) :
  M <> [] -> 0 < S -> Forall (fun x : R => (0 <= x)%R) M ->
  (0 <= SubbandValue (FA:=exact) M S s)%R.
Proof.
  intros Hne HS HM. unfold SubbandValue, Scale, SubbandBins. simpl.
  apply Rmult_le_pos.
  - apply sum_nonnegative; [|lra]. by apply Forall_take, Forall_drop.
  - apply Rmult_le_pos; [apply IZR_le; lia|].
    left. apply Rinv_0_lt_compat. apply IZR_lt. destruct M; [done|simpl; lia].
Qed.

(** On a spectrum of magnitudes (no bin is negative, at least one bin),
    over the reals: every sub-band value the call computes is non-negative;
    when no cell of the history was negative before the call, none is after
    it, and no average energy is negative. *)
Theorem energies_stay_nonnegative (M : list (float (FloatArith:=exact)))
    (bd : UBeatDetection (FA:=exact)) :
  ready bd -> M <> [] -> Forall (fun x : R => (0 <= x)%R) M ->
  nonnegative_history bd ->
  exists bd', ProcessMagnitude M bd = Some bd' /\
    nonnegative_history bd' /\
    Forall (fun x : R => (0 <= x)%R) (FFTSubbands bd') /\
    Forall (fun x : R => (0 <= x)%R) (FFTAverageEnergy bd').
Proof.
  intros Hready Hne HM Hhist. pose proof Hready as (Hwf & [HS HH] & Hpos).
  exists (UpdateFFT_result M bd). split; [by apply UpdateFFT_ready|].
  split; [|split].
  - unfold nonnegative_history, UpdateFFT_result. cbn [EnergyHistory].
    apply Forall_lookup_2. intros s row.
    rewrite list_lookup_imap.
    destruct (EnergyHistory bd !! s) as [row0|] eqn:Hrow; simpl; [|done].
    intros [= <-]. apply Forall_insert.
    + exact (Forall_lookup_1 _ _ _ _ Hhist Hrow).
    + by apply SubbandValue_nonnegative.
  - unfold UpdateFFT_result. cbn [FFTSubbands].
    apply Forall_lookup_2. intros s x. rewrite list_lookup_imap.
    destruct (FFTSubbands bd !! s); simpl; [|done].
    intros [= <-]. by apply SubbandValue_nonnegative.
  - unfold UpdateFFT_result. cbn [FFTAverageEnergy].
    apply Forall_lookup_2. intros s x. rewrite list_lookup_imap.
    destruct (FFTAverageEnergy bd !! s); simpl; [|done].
    intros [= <-].
    assert (Forall (fun x : R => (0 <= x)%R) (default [] (EnergyHistory bd !! s)))
      as Hrow0.
    { destruct (EnergyHistory bd !! s) as [row0|] eqn:Hrow; simpl; [|constructor].
      exact (Forall_lookup_1 _ _ _ _ Hhist Hrow). }
    unfold AverageValue. simpl. apply Rmult_le_pos.
    + apply sum_nonnegative; [done|lra].
    + left. apply Rinv_0_lt_compat. by apply IZR_lt.
Qed.

Lemma energies_stay_nonnegative_witness :
  let bd := FreshDetector (FA:=exact) 2 3 in
  exists bd', ProcessMagnitude (FA:=exact) [1; 3; 5; 7]%R bd = Some bd' /\
    nonnegative_history bd' /\
    Forall (fun x : R => (0 <= x)%R) (FFTSubbands bd') /\
    Forall (fun x : R => (0 <= x)%R) (FFTAverageEnergy bd').
Proof.
  intros bd. apply (energies_stay_nonnegative [1; 3; 5; 7]%R bd).
  - apply FreshDetector_ready; lia.
  - discriminate.
  - repeat constructor; lra.
  - unfold nonnegative_history. simpl. repeat constructor; simpl; lra.
Defined.

(** ** Short spectra, whole sub-bands, large variances *)

(** With fewer bins than sub-bands the width of a sub-band is 0: no bin is
    read, every sub-band value is [0 * (S / len)] whatever the spectrum
    holds, and the variance cell is its old value times [S / len]. *)
Theorem short_spectrum_reads_no_bin {FA : FloatArith} (M : list float)
    (bd : UBeatDetection) (s : nat) :
  ready bd -> Z.of_nat (length M) < FFTSubbandsSize bd ->
  Z.of_nat s < FFTSubbandsSize bd ->
  let Scale := Scale M (FFTSubbandsSize bd) in
  exists bd' old,
    ProcessMagnitude M bd = Some bd' /\ FFTVariance bd !! s = Some old /\
    FFTSubbands bd' !! s = Some (fmul (f_of_int 0) Scale) /\
    FFTVariance bd' !! s = Some (fmul old Scale).
Proof.
  intros Hready Hshort Hs Sc.
  destruct (UpdateFFT_result_cells M bd s) as (old & row & Hold & _ & Hsub & Hvar & _);
    [apply Hready | done |].
  assert (SubbandBins M (FFTSubbandsSize bd) s = []) as Hbins.
  { unfold SubbandBins, Width. rewrite Z.quot_small by lia. apply take_0. }
  unfold VarianceValue in Hvar. unfold SubbandValue in Hsub, Hvar.
  rewrite Hbins in Hsub, Hvar. simpl in Hsub, Hvar.
  exists (UpdateFFT_result M bd), old. split; [by apply UpdateFFT_ready|]. done.
Qed.

Lemma short_spectrum_reads_no_bin_witness :
  let bd := FreshDetector (FA:=binary32) 2 3 in
  let M : list (float (FloatArith:=binary32)) := [f32 9] in
  let Scale := Scale M (FFTSubbandsSize bd) in
  exists bd' old,
    ProcessMagnitude M bd = Some bd' /\ FFTVariance bd !! 1%nat = Some old /\
    FFTSubbands bd' !! 1%nat = Some (fmul (f_of_int 0) Scale) /\
    FFTVariance bd' !! 1%nat = Some (fmul old Scale).
Proof.
  intros bd M. apply (short_spectrum_reads_no_bin (FA:=binary32) M bd 1).
  - apply FreshDetector_ready; lia.
  - simpl. lia.
  - simpl. lia.
Defined.





(** the threshold coefficient over the reals *)
Lemma BeatValue_exact (v : R) :
  BeatValue (FA:=exact) v = (- 25714 / 10000000 * v + 115142857 / 100000000)%R.
Proof.
  unfold BeatValue. simpl.
  change (10 ^ Z.of_nat 7) with 10000000. change (10 ^ Z.of_nat 8) with 100000000.
  lra.
Qed.

Lemma large_variance_over_reals (M : list (float (FloatArith:=exact)))
    (bd : UBeatDetection (FA:=exact)) (s : nat) (old : R) :
  ready bd -> Z.of_nat s < FFTSubbandsSize bd -> nonnegative_history bd ->
  FFTVariance bd !! s = Some old ->
  (448 <= VarianceValue (FA:=exact) M (FFTSubbandsSize bd) s old)%R ->
  (0 < SubbandValue (FA:=exact) M (FFTSubbandsSize bd) s)%R ->
  exists bd', ProcessMagnitude M bd = Some bd' /\ IsBeat (Z.of_nat s) bd' = Some true.
Proof.
  intros Hready Hs Hhist Hold Hvar Hval.
  pose proof Hready as (Hwf & [HS HH] & Hpos).
  destruct (UpdateFFT_result_cells M bd s)
    as (old' & row & Hold' & Hrow & Hsub & _ & Hbeat & Havg & _); [done | done |].
  pose proof (eq_trans (eq_sym Hold') Hold) as [= ->].
  assert (0 <= AverageValue (FA:=exact) (EnergyHistorySize bd) row)%R as Havg0.
  { unfold AverageValue. simpl. apply Rmult_le_pos.
    - apply sum_nonnegative; [|lra]. exact (Forall_lookup_1 _ _ _ _ Hhist Hrow).
    - left. apply Rinv_0_lt_compat. by apply IZR_lt. }
  pose proof (BeatValue_exact (VarianceValue (FA:=exact) M (FFTSubbandsSize bd) s old))
    as Hcoef.
  set (V := VarianceValue (FA:=exact) M (FFTSubbandsSize bd) s old) in *.
  set (C := BeatValue (FA:=exact) V) in *.
  set (E := SubbandValue (FA:=exact) M (FFTSubbandsSize bd) s) in *.
  set (A := AverageValue (FA:=exact) (EnergyHistorySize bd) row) in *.
  clearbody C V E A.
  exists (UpdateFFT_result M bd). split; [by apply UpdateFFT_ready|].
  pose proof (UpdateFFT_result_ready M bd Hready) as (Hwf' & _ & _).
  destruct (IsBeat_in_range (UpdateFFT_result M bd) (Z.of_nat s) Hwf')
    as (e & avg & c & He & Ha & Hc & ->); [simpl; lia|].
  rewrite at_nat in He, Ha, Hc.
  pose proof (eq_trans (eq_sym He) Hsub) as [= ->].
  pose proof (eq_trans (eq_sym Ha) Havg) as [= ->].
  pose proof (eq_trans (eq_sym Hc) Hbeat) as [= ->].
  f_equal. apply Rgtb_true. change (A * C < E)%R. nra.
Qed.

(** The threshold coefficient [-0.0025714 * variance + 1.15142857] is
    negative from the variance 448 on.  Over the reals, after a call that
    leaves such a variance in a sub-band whose history held no negative
    value, [IsBeat] is [true] for that sub-band as soon as its value is
    positive, however large the average energy is.  In binary32 an overflow
    breaks this: with the bins [2^127, 2^127] on a new detector the variance
    and the value are [+inf], the coefficient is [-inf], its product with
    the average 0 is a NaN, and [IsBeat] is [false]. *)
Theorem large_variance_is_always_a_beat :
  (forall (M : list (float (FloatArith:=exact))) (bd : UBeatDetection (FA:=exact))
          (s : nat) (old : R),
     ready bd -> Z.of_nat s < FFTSubbandsSize bd -> nonnegative_history bd ->
     FFTVariance bd !! s = Some old ->
     (448 <= VarianceValue (FA:=exact) M (FFTSubbandsSize bd) s old)%R ->
     (0 < SubbandValue (FA:=exact) M (FFTSubbandsSize bd) s)%R ->
     exists bd', ProcessMagnitude M bd = Some bd' /\
                 IsBeat (Z.of_nat s) bd' = Some true) /\
  (let r := FeedFresh 1 2 1 [f32 (2 ^ 127); f32 (2 ^ 127)] in
   FFTVariance (FA:=binary32) <$> r = Some [S754_infinity false] /\
   B32.gt (S754_infinity false) (f32 448) = true /\
   FFTSubbands (FA:=binary32) <$> r = Some [S754_infinity false] /\
   FFTBeatValues (FA:=binary32) <$> r = Some [S754_infinity true] /\
   and_then r (IsBeat 0) = Some false).
Proof.
  split; [exact large_variance_over_reals | vm_compute; repeat split; reflexivity].
Qed.

Lemma large_variance_is_always_a_beat_witness :
  let bd := FreshDetector (FA:=exact) 1 2 in
  exists bd', ProcessMagnitude (FA:=exact) [0; 100]%R bd = Some bd' /\
    IsBeat (Z.of_nat 0) bd' = Some true.
Proof.
  intros bd.
  apply (proj1 large_variance_is_always_a_beat [0; 100]%R bd 0%nat 0%R).
  - apply FreshDetector_ready; lia.
  - simpl. lia.
  - unfold nonnegative_history. simpl. repeat constructor; simpl; lra.
  - reflexivity.
  - unfold VarianceValue, SubbandValue, Scale, SubbandBins, Width, fpow2. simpl.
    change (Z.of_nat 2) with 2. lra.
  - unfold SubbandValue, Scale, SubbandBins, Width. simpl.
    change (Z.of_nat 2) with 2. lra.
Defined.
